(** * build_cfm_weekly: week number, image selection, heading extraction

    A shallow embedding of [scripts/build_cfm_weekly.py] and the properties
    its specification states about it.

    Conventions of the embedding.
    - A Python [str] is a [string]: the list of its code points, for texts
      whose code points are below 256.  On that range [isspace], [isdecimal]
      and [lower] below are the functions of Python 3.
    - Python integers are [Z] (or [N] where the code only produces naturals).
    - A [dict] is a [gmap], the [seen] set of the image selector a [gset].
    - Library calls that the script makes but does not define are either
      modelled by the documented behaviour of the library (the [datetime]
      ISO calendar, [str] methods, the [re] pattern of the srcset parser,
      BeautifulSoup's tree queries, [raise_for_status]) or, where the result is
      only passed on, taken as parameters of a section ([urljoin], the HTML
      parser, the JSON serialiser). *)

From Stdlib Require Import ZArith NArith Ascii String DecimalString Lia.
From Stdlib Require Import Sorted.
From stdpp Require Import base decidable option list gmap strings.

Local Open Scope Z_scope.
#[local] Set Warnings "-register-all".

(* ===================================================================== *)
(** * Python strings                                                      *)
(* ===================================================================== *)

Module PyStr.

Definition code (c : ascii) : N := N_of_ascii c.

(** [str.isspace] on one code point below 256: TAB..CR, FS..US, space,
    NEL and NBSP.  The [\s] class of [re] on [str] patterns is the same. *)
Definition isspace (c : ascii) : bool :=
  let n := code c in
  ((9 <=? n) && (n <=? 13) || (28 <=? n) && (n <=? 32)
   || (n =? 133) || (n =? 160))%N.

(** The [\d] class of [re] on [str] patterns: the decimal digits, which
    below 256 are the ten ASCII digits. *)
Definition isdecimal (c : ascii) : bool :=
  let n := code c in ((48 <=? n) && (n <=? 57))%N.

Definition digit_value (c : ascii) : N := (code c - 48)%N.

(** [str.lower] on one code point below 256. *)
Definition lower_char (c : ascii) : ascii :=
  let n := code c in
  if ((65 <=? n) && (n <=? 90)
      || (192 <=? n) && (n <=? 222) && negb (n =? 215))%N
  then ascii_of_N (n + 32) else c.

Fixpoint lower (s : string) : string :=
  match s with
  | EmptyString => EmptyString
  | String c s' => String (lower_char c) (lower s')
  end.

(** Truth value of a [str]: non-empty. *)
Definition nonempty (s : string) : bool :=
  match s with EmptyString => false | String _ _ => true end.

Fixpoint lstrip (s : string) : string :=
  match s with
  | EmptyString => EmptyString
  | String c s' => if isspace c then lstrip s' else s
  end.

Fixpoint rstrip (s : string) : string :=
  match s with
  | EmptyString => EmptyString
  | String c s' =>
      let r := rstrip s' in
      if isspace c && negb (nonempty r) then EmptyString else String c r
  end.

(** [s.strip()] *)
Definition strip (s : string) : string := rstrip (lstrip s).

(** [s.startswith(p)] *)
Fixpoint startswith (p s : string) : bool :=
  match p, s with
  | EmptyString, _ => true
  | String _ _, EmptyString => false
  | String a p', String b s' => Ascii.eqb a b && startswith p' s'
  end.

(** [s.endswith(p)]: some suffix of [s] is [p]. *)
Fixpoint endswith (p s : string) : bool :=
  String.eqb s p
  || match s with
     | EmptyString => false
     | String _ s' => endswith p s'
     end.

(** [p in s] *)
Fixpoint contains (p s : string) : bool :=
  startswith p s
  || match s with
     | EmptyString => false
     | String _ s' => contains p s'
     end.

(** [s.split(sep)] for a one-character separator: never the empty list. *)
Fixpoint split (sep : ascii) (s : string) : list string :=
  match s with
  | EmptyString => [EmptyString]
  | String c s' =>
      if Ascii.eqb c sep then EmptyString :: split sep s'
      else match split sep s' with
           | h :: t => String c h :: t
           | [] => [String c EmptyString]
           end
  end.

(** The maximal runs of non-space characters of [s], in order: what
    [re.findall(r"\S+", s)] returns. *)
Fixpoint words (s : string) : list string :=
  match s with
  | EmptyString => []
  | String c s' =>
      if isspace c then words s'
      else match s' with
           | EmptyString => [String c EmptyString]
           | String c' _ =>
               if isspace c' then String c EmptyString :: words s'
               else match words s' with
                    | h :: t => String c h :: t
                    | [] => [String c EmptyString]
                    end
           end
  end.

(** [sep.join(l)] *)
Fixpoint join (sep : string) (l : list string) : string :=
  match l with
  | [] => EmptyString
  | [x] => x
  | x :: l' => x +:+ sep +:+ join sep l'
  end.

(** The longest prefix of [s] whose characters satisfy [p], and the rest:
    what a greedy [c+] of [re] consumes when the next pattern item cannot
    start with a character of the class. *)
Fixpoint span (p : ascii -> bool) (s : string) : string * string :=
  match s with
  | EmptyString => (EmptyString, EmptyString)
  | String c s' =>
      if p c then let '(a, b) := span p s' in (String c a, b)
      else (EmptyString, s)
  end.

(** every character of [s] is in the class *)
Fixpoint all (p : ascii -> bool) (s : string) : bool :=
  match s with
  | EmptyString => true
  | String c s' => p c && all p s'
  end.

(** the next character of [s], if any, is outside the class *)
Definition stops (p : ascii -> bool) (s : string) : bool :=
  match s with
  | EmptyString => true
  | String c _ => negb (p c)
  end.

(** the [\S] class *)
Definition nonspace (c : ascii) : bool := negb (isspace c).

(** [s] starts with a character outside the space class *)
Definition starts_nonspace (p : string) : bool :=
  match p with
  | EmptyString => false
  | String c _ => nonspace c
  end.

(** [int(ds)] for a string of decimal digits. *)
Definition int_of_digits (ds : string) : N :=
  (fix go (acc : N) (s : string) : N :=
     match s with
     | EmptyString => acc
     | String c s' => go (10 * acc + digit_value c)%N s'
     end) 0%N ds.

(** [str(n)] for an integer. *)
Definition str_of_Z (n : Z) : string :=
  NilEmpty.string_of_int (Z.to_int n).

(** [format(n, "02d")]: the decimal text, zero-padded on the left to a
    width of two characters, the sign counted. *)
Definition format_02d (n : Z) : string :=
  let digits := str_of_Z (Z.abs n) in
  if n <? 0 then String "-" digits
  else match digits with
       | String _ EmptyString => String "0" digits
       | _ => digits
       end.

(** [s[n:]] *)
Fixpoint drop (n : nat) (s : string) : string :=
  match n, s with
  | O, _ => s
  | S _, EmptyString => EmptyString
  | S n', String _ s' => drop n' s'
  end.

(** [s.replace(pat, by, 1)] *)
Fixpoint replace_first (pat by_ s : string) : string :=
  match s with
  | EmptyString => EmptyString
  | String c s' =>
      if startswith pat s then by_ +:+ drop (String.length pat) s
      else String c (replace_first pat by_ s')
  end.

End PyStr.

(* ===================================================================== *)
(** * Week calculator                                                     *)
(* ===================================================================== *)

(** [datetime.date]: the proleptic Gregorian calendar, years 1..9999. *)
Record date := { year : Z; month : Z; day : Z }.

Module Calendar.

Definition is_leap (y : Z) : bool :=
  (y mod 4 =? 0) && (negb (y mod 100 =? 0) || (y mod 400 =? 0)).

(** number of days before January 1st of year [y] *)
Definition days_before_year (y : Z) : Z :=
  let y1 := y - 1 in y1 * 365 + y1 / 4 - y1 / 100 + y1 / 400.

Definition days_in_month (y m : Z) : Z :=
  if m =? 2 then (if is_leap y then 29 else 28)
  else if (m =? 4) || (m =? 6) || (m =? 9) || (m =? 11) then 30 else 31.

(** number of days in the year before the first day of month [m] *)
Definition days_before_month (y m : Z) : Z :=
  let table := [0; 31; 59; 90; 120; 151; 181; 212; 243; 273; 304; 334] in
  nth (Z.to_nat (m - 1)) table 0
  + (if (2 <? m) && is_leap y then 1 else 0).

(** proleptic ordinal: January 1st of year 1 is day 1 *)
Definition ymd2ord (y m d : Z) : Z :=
  days_before_year y + days_before_month y m + d.

(** day number of the Monday starting ISO week 1 of year [y] *)
Definition isoweek1monday (y : Z) : Z :=
  let THURSDAY := 3 in
  let firstday := ymd2ord y 1 1 in
  let firstweekday := (firstday + 6) mod 7 in
  let week1monday := firstday - firstweekday in
  if THURSDAY <? firstweekday then week1monday + 7 else week1monday.

(** [d.isocalendar().week] *)
Definition isocalendar_week (d : date) : Z :=
  let week1monday := isoweek1monday (year d) in
  let today := ymd2ord (year d) (month d) (day d) in
  let week := (today - week1monday) / 7 in
  if week <? 0 then
    (today - isoweek1monday (year d - 1)) / 7 + 1
  else if (52 <=? week) && (isoweek1monday (year d + 1) <=? today) then
    0 + 1
  else week + 1.

Definition year_length (y : Z) : Z := if is_leap y then 366 else 365.

(** the dates a [datetime.date] can hold *)
Definition valid_date (d : date) : Prop :=
  1 <= year d <= 9999 /\ 1 <= month d <= 12
  /\ 1 <= day d <= days_in_month (year d) (month d).

End Calendar.

Definition iso_week_number (d : date) : Z :=
  let wk := Calendar.isocalendar_week d in
  Z.min wk 52.

(* ===================================================================== *)
(** * Constants and URL resolution                                        *)
(* ===================================================================== *)

Definition BASE : string := "https://www.churchofjesuschrist.org".
Definition MANUAL_PATH : string :=
  "/study/manual/come-follow-me-for-home-and-church-old-testament-2026/"
  +:+ "{week:02d}?lang=eng".
Definition OUT_JSON : string := "data/come_follow_me_this_week.json".

(** [MANUAL_PATH.format(week=week)]: the one replacement field of the
    template gives way to the formatted week. *)
Definition MANUAL_PATH_format (week : Z) : string :=
  PyStr.replace_first "{week:02d}" (PyStr.format_02d week) MANUAL_PATH.

(* ===================================================================== *)
(** * Responsive candidate lists                                          *)
(* ===================================================================== *)

(** [re.match(r"(\S+)\s+(\d+)w", part)]: the groups [(int(group 2), group 1)]
    of the match, or [None].  Each of the three repetitions is greedy and is
    followed by an item that cannot start with a character of its class, so
    the only way to match is to take each run in full. *)
Definition match_candidate (part : string) : option (N * string) :=
  let '(url, r1) := PyStr.span PyStr.nonspace part in
  if negb (PyStr.nonempty url) then None else
  let '(ws, r2) := PyStr.span PyStr.isspace r1 in
  if negb (PyStr.nonempty ws) then None else
  let '(ds, r3) := PyStr.span PyStr.isdecimal r2 in
  if negb (PyStr.nonempty ds) then None else
  match r3 with
  | String "w" _ => Some (PyStr.int_of_digits ds, url)
  | _ => None
  end.

(** The loop of [_largest_from_srcset] that fills [candidates]. *)
Fixpoint collect_candidates (parts : list string) : list (N * string) :=
  match parts with
  | [] => []
  | part :: rest =>
      let part := PyStr.strip part in
      match match_candidate part with
      | Some c => c :: collect_candidates rest
      | None => collect_candidates rest
      end
  end.

Definition candidates_of (srcset : string) : list (N * string) :=
  collect_candidates (PyStr.split "," srcset).

(** [list.sort(key=lambda x: x[0])]: a stable sort on the width.  Insertion
    places an element before the elements of the sorted tail whose key is
    not smaller, so equal keys keep their order of occurrence. *)
Fixpoint insert_by_width (x : N * string) (l : list (N * string))
  : list (N * string) :=
  match l with
  | [] => [x]
  | y :: l' =>
      if (fst x <=? fst y)%N then x :: l else y :: insert_by_width x l'
  end.

Fixpoint sort_by_width (l : list (N * string)) : list (N * string) :=
  match l with
  | [] => []
  | x :: l' => insert_by_width x (sort_by_width l')
  end.

Definition _largest_from_srcset (srcset : string) : string :=
  if negb (PyStr.nonempty srcset) then "" else
  let candidates := candidates_of srcset in
  match candidates with
  | [] => ""
  | _ =>
      let candidates := sort_by_width candidates in
      match last candidates with
      | Some c => snd c
      | None => ""
      end
  end.

(* ===================================================================== *)
(** * The parsed document                                                 *)
(* ===================================================================== *)

(** The classes of the strings of a tree: [NavigableString] itself
    ([PlainText]) and its subclasses.  The HTML parser makes the text
    inside a [script], [style], [template], [rt] or [rp] element a
    [Script], [Stylesheet], [TemplateString], [RubyTextString] or
    [RubyParenthesisString], a comment a [Comment], and so on. *)
Inductive string_class :=
| PlainText | CData | Comment | Declaration | Doctype
| ProcessingInstruction | Script | Stylesheet | TemplateString
| RubyTextString | RubyParenthesisString.

(** A BeautifulSoup tree: a [Tag] has a name, an attribute dictionary and
    contents; a [NavigableString] is a piece of text, of some class.  The
    [BeautifulSoup] object itself is the tag named [[document]] at the
    root.  (The HTML parser lower-cases tag and attribute names.) *)
Inductive node :=
| Tag (name : string) (attrs : gmap string string) (contents : list node)
| NavigableString (class : string_class) (text : string).

Module Soup.

Definition document_name : string := "[document]".

(** The [BeautifulSoup] object over top-level nodes. *)
Definition soup (top : list node) : node := Tag document_name ∅ top.

(** Induction over a tree, with the property known of all contents. *)
Fixpoint node_induction (P : node -> Prop)
    (Htext : forall k s, P (NavigableString k s))
    (Htag : forall nm a cs, Forall P cs -> P (Tag nm a cs))
    (n : node) {struct n} : P n :=
  match n with
  | NavigableString k s => Htext k s
  | Tag nm a cs =>
      Htag nm a cs
        ((fix all_contents (l : list node) : Forall P l :=
            match l with
            | [] => List.Forall_nil P
            | c :: l' =>
                List.Forall_cons P c l' (node_induction P Htext Htag c)
                  (all_contents l')
            end) cs)
  end.

Definition name (n : node) : string :=
  match n with Tag nm _ _ => nm | NavigableString _ _ => "" end.

(** [tag.get(key, "")] *)
Definition get (n : node) (key : string) : string :=
  match n with
  | Tag _ a _ => default "" (a !! key)
  | NavigableString _ _ => ""
  end.

(** An element together with the names of its ancestors, nearest first:
    what a selector with a descendant combinator looks at. *)
Record located := Loc { ancestors : list string; element : node }.

(** The elements of the subtree of [n] in document order (pre-order),
    [n] itself first when it is a tag. *)
Fixpoint subtree (anc : list string) (n : node) : list located :=
  match n with
  | NavigableString _ _ => []
  | Tag nm _ cs => Loc anc n :: flat_map (subtree (nm :: anc)) cs
  end.

(** [tag.descendants], tags only, in document order. *)
Definition descendants (l : located) : list located :=
  match element l with
  | NavigableString _ _ => []
  | Tag nm _ cs => flat_map (subtree (nm :: ancestors l)) cs
  end.

(** The three selectors of the image scan and the one that finds the
    search roots. *)
Inductive selector := SelPicture | SelFigureImg | SelImg | SelMainArticle.

Definition matches (sel : selector) (l : located) : bool :=
  let nm := name (element l) in
  match sel with
  | SelPicture => String.eqb nm "picture"
  | SelImg => String.eqb nm "img"
  | SelFigureImg =>
      String.eqb nm "img"
      && existsb (fun a => String.eqb a "figure") (ancestors l)
  | SelMainArticle => String.eqb nm "main" || String.eqb nm "article"
  end.

(** [root.select(sel)]: the descendants of [root] that match, in document
    order.  A compound selector is matched against the whole document, so
    the [figure] of [figure img] may be [root] or lie above it. *)
Definition select (sel : selector) (root : located) : list located :=
  List.filter (matches sel) (descendants root).

(** [tag.find_all(nm)] and [tag.find(nm)] *)
Definition find_all (nm : string) (t : node) : list node :=
  element <$> List.filter (fun l => String.eqb (name (element l)) nm)
                          (descendants (Loc [] t)).
Definition find (nm : string) (t : node) : option node :=
  head (find_all nm t).

(** [tag.interesting_string_types]: the classes of string that the text
    of a tag named [nm] is made of.  A tag for which the parser has a
    string container takes the strings of that class only, any other tag
    those whose class is exactly [NavigableString] or [CData]. *)
Definition interesting_string_types (nm : string) (k : string_class)
  : bool :=
  if String.eqb nm "rt"
  then match k with RubyTextString => true | _ => false end
  else if String.eqb nm "rp"
  then match k with RubyParenthesisString => true | _ => false end
  else if String.eqb nm "style"
  then match k with Stylesheet => true | _ => false end
  else if String.eqb nm "script"
  then match k with Script => true | _ => false end
  else if String.eqb nm "template"
  then match k with TemplateString => true | _ => false end
  else match k with PlainText | CData => true | _ => false end.

(** [tag._all_strings(types=...)]: the strings below [n] whose class is
    one of [types], in document order. *)
Fixpoint strings (types : string_class -> bool) (n : node)
  : list string :=
  match n with
  | NavigableString k s => if types k then [s] else []
  | Tag _ _ cs => flat_map (strings types) cs
  end.

(** The strings that [el.get_text] is made of. *)
Definition text_pieces (el : node) : list string :=
  strings (interesting_string_types (name el)) el.

(** [el.get_text(sep, strip=True)]: every string of an interesting class
    stripped, the empty ones dropped, the rest joined by [sep]. *)
Definition get_text (sep : string) (el : node) : string :=
  PyStr.join sep
    (List.filter PyStr.nonempty (PyStr.strip <$> text_pieces el)).

(** [soup.select_one(sel)] for a selector that looks at the element only:
    the first element of the document, in document order, that matches. *)
Definition select_one (p : node -> bool) (sp : node) : option node :=
  head (List.filter p (element <$> descendants (Loc [] sp))).

(** [.cls]: the [class] attribute, read as a whitespace-separated list,
    has [cls]. *)
Definition has_class (cls : string) (n : node) : bool :=
  match n with
  | Tag _ a _ =>
      match a !! "class" with
      | Some v => existsb (String.eqb cls) (PyStr.words v)
      | None => false
      end
  | NavigableString _ _ => false
  end.

(** [p.title-number] and [h1] *)
Definition is_title_number (n : node) : bool :=
  String.eqb (name n) "p" && has_class "title-number" n.
Definition is_h1 (n : node) : bool := String.eqb (name n) "h1".

Definition select_one_title_number : node -> option node :=
  select_one is_title_number.
Definition select_one_h1 : node -> option node := select_one is_h1.

End Soup.

Import Soup.

(* ===================================================================== *)
(** * Image selector                                                      *)
(* ===================================================================== *)

(** [_looks_like_bad_image] *)
Definition bad_substrings : list string :=
  [ "sprite"; "icon"; "icons"; "logo"; "favicon"; "spinner"; "loading";
    "placeholder"; "transparent"; "blank"; "1x1"; "pixel" ].

Definition _looks_like_bad_image (url : string) : bool :=
  let u := PyStr.lower (PyStr.strip url) in
  if negb (PyStr.nonempty u) then true
  else if PyStr.startswith "data:image" u then true
  else if PyStr.endswith ".svg" u || PyStr.contains ".svg?" u then true
  else if existsb (fun s => PyStr.contains s u) bad_substrings then true
  else false.

Section ImageSelector.

(** [urllib.parse.urljoin] *)
Variable urljoin : string -> string -> string.

Definition absolute_url (u : string) : string :=
  if negb (PyStr.nonempty u) then "" else urljoin BASE u.

(** The first non-empty value among the attributes [keys] of [tag]. *)
Fixpoint first_attr (tag : node) (keys : list string) : option string :=
  match keys with
  | [] => None
  | attr :: rest =>
      let src := get tag attr in
      if PyStr.nonempty src then Some src else first_attr tag rest
  end.

Definition src_attrs : list string :=
  ["src"; "data-src"; "data-lazy-src"; "data-original"].

(** [get("srcset", "") or get("data-srcset", "") or ""] *)
Definition srcset_of (tag : node) : string :=
  if PyStr.nonempty (get tag "srcset") then get tag "srcset"
  else if PyStr.nonempty (get tag "data-srcset") then get tag "data-srcset"
  else "".

Definition pick_best_image_from_tag (img_tag : option node) : string :=
  match img_tag with
  | None => ""
  | Some tag =>
      let srcset := srcset_of tag in
      let best := _largest_from_srcset srcset in
      if PyStr.nonempty best then absolute_url best
      else match first_attr tag src_attrs with
           | Some src => absolute_url src
           | None => ""
           end
  end.

(** [ss.split(",")[0].strip().split(" ")[0].strip()] *)
Definition first_url (ss : string) : string :=
  let entry := PyStr.strip (default "" (head (PyStr.split "," ss))) in
  PyStr.strip (default "" (head (PyStr.split " " entry))).

(** The loop of [_pick_from_picture_tag] over the [source] elements:
    [Some url] when it returns, [None] when it runs out. *)
Fixpoint pick_from_sources (sources : list node) : option string :=
  match sources with
  | [] => None
  | src :: rest =>
      let ss := PyStr.strip (get src "srcset") in
      if PyStr.nonempty ss then
        let best := _largest_from_srcset ss in
        if PyStr.nonempty best then Some (absolute_url best)
        else
          let first := first_url ss in
          if PyStr.nonempty first then Some (absolute_url first)
          else pick_from_sources rest
      else pick_from_sources rest
  end.

Definition _pick_from_picture_tag (picture_tag : option node) : string :=
  match picture_tag with
  | None => ""
  | Some tag =>
      match pick_from_sources (find_all "source" tag) with
      | Some url => url
      | None => pick_best_image_from_tag (find "img" tag)
      end
  end.

(** The dispatch on [el.name] at the head of the loop body. *)
Definition extract (el : node) : string :=
  if String.eqb (name el) "picture" then _pick_from_picture_tag (Some el)
  else if String.eqb (name el) "img" then pick_best_image_from_tag (Some el)
  else "".

(** One turn of the innermost loop of [pick_top_image]: [inl url] when the
    function returns [url], [inr seen'] when the loop continues. *)
Definition visit (seen : gset string) (el : node)
  : string + gset string :=
  let url := PyStr.strip (extract el) in
  if negb (PyStr.nonempty url) then inr seen else
  let url := absolute_url url in
  if negb (PyStr.nonempty url) || bool_decide (url ∈ seen) then inr seen
  else
    let seen := {[ url ]} ∪ seen in
    if _looks_like_bad_image url then inr seen else inl url.

(** [for el in els: ...] *)
Fixpoint scan_elements (seen : gset string) (els : list located)
  : string + gset string :=
  match els with
  | [] => inr seen
  | el :: rest =>
      match visit seen (element el) with
      | inl url => inl url
      | inr seen' => scan_elements seen' rest
      end
  end.

Definition selectors : list selector := [SelPicture; SelFigureImg; SelImg].

(** [for sel in sels: for el in root.select(sel): ...] *)
Fixpoint scan_selectors (root : located) (seen : gset string)
    (sels : list selector) : string + gset string :=
  match sels with
  | [] => inr seen
  | sel :: rest =>
      match scan_elements seen (select sel root) with
      | inl url => inl url
      | inr seen' => scan_selectors root seen' rest
      end
  end.

(** [for root in roots: for sel in selectors: ...] *)
Fixpoint scan_roots (seen : gset string) (roots : list located)
  : string + gset string :=
  match roots with
  | [] => inr seen
  | root :: rest =>
      match scan_selectors root seen selectors with
      | inl url => inl url
      | inr seen' => scan_roots seen' rest
      end
  end.

Definition search_roots (sp : node) : list located :=
  let containers := select SelMainArticle (Loc [] sp) in
  match containers with
  | [] => [Loc [] sp]
  | _ => containers
  end.

Definition pick_top_image (sp : node) : string :=
  match scan_roots ∅ (search_roots sp) with
  | inl url => url
  | inr seen =>
      (* nothing found in main/article: the whole document *)
      match scan_selectors (Loc [] sp) seen selectors with
      | inl url => url
      | inr _ => ""
      end
  end.

End ImageSelector.

(* ===================================================================== *)
(** * The run: fetch, scrape, write                                       *)
(* ===================================================================== *)

(** [requests.Response], as far as the script reads it. *)
Record response :=
  { status_code : Z; reason : string; url_of : string; text : string }.

(** [Response.raise_for_status]: [Some msg] when it raises [HTTPError(msg)],
    which it does for the client and server error classes only. *)
Definition raise_for_status (r : response) : option string :=
  let code := PyStr.str_of_Z (status_code r) in
  if (400 <=? status_code r) && (status_code r <? 500) then
    Some (code +:+ " Client Error: " +:+ reason r +:+ " for url: " +:+ url_of r)
  else if (500 <=? status_code r) && (status_code r <? 600) then
    Some (code +:+ " Server Error: " +:+ reason r +:+ " for url: " +:+ url_of r)
  else None.

(** The record [scrape_week] returns. *)
Record payload :=
  { generated_at_utc : string;
    week_number : Z;
    source_url : string;
    image_url : string;
    small_heading : string;
    big_heading : string }.

(** What a run reads from outside: the clock and the network.  [http_get]
    is [requests.get] with the script's timeout and headers: [inl msg] when
    it raises (a transport failure), [inr r] when a response arrives. *)
Record environment :=
  { today : date;
    now_utc_iso : string;
    http_get : string -> string + response }.

(** What a run writes to: regular files by path, directories, and the two
    output streams (lines, oldest first). *)
Record world :=
  { files : gmap string string;
    directories : gset string;
    stdout : list string;
    stderr : list string }.

Module Os.

Definition is_slash (c : ascii) : bool := Ascii.eqb c "/".

(** [p[:p.rfind("/") + 1]] *)
Fixpoint through_last_slash (p : string) : string :=
  match p with
  | EmptyString => EmptyString
  | String c p' =>
      if is_slash c || PyStr.contains "/" p'
      then String c (through_last_slash p') else EmptyString
  end.

Fixpoint all_slashes (p : string) : bool :=
  match p with
  | EmptyString => true
  | String c p' => is_slash c && all_slashes p'
  end.

Fixpoint rstrip_slashes (p : string) : string :=
  match p with
  | EmptyString => EmptyString
  | String c p' =>
      let r := rstrip_slashes p' in
      if is_slash c && negb (PyStr.nonempty r) then EmptyString
      else String c r
  end.

(** [os.path.dirname] (posix) *)
Definition dirname (p : string) : string :=
  let head := through_last_slash p in
  if PyStr.nonempty head && negb (all_slashes head)
  then rstrip_slashes head else head.

(** [os.makedirs(d, exist_ok=True)] for a one-level relative path: it
    raises when [d] is empty or names a regular file. *)
Definition makedirs (d : string) (w : world) : string + world :=
  if negb (PyStr.nonempty d) then inl "FileNotFoundError"
  else if bool_decide (d ∈ dom (files w)) then inl "FileExistsError"
  else inr {| files := files w; directories := {[ d ]} ∪ directories w;
              stdout := stdout w; stderr := stderr w |}.

(** [with open(path, "w") as f: f.write(content)]: it raises when [path]
    names a directory; otherwise the file holds exactly [content]. *)
Definition write_file (path content : string) (w : world)
  : string + world :=
  if bool_decide (path ∈ directories w) then inl "IsADirectoryError"
  else inr {| files := <[ path := content ]> (files w);
              directories := directories w;
              stdout := stdout w; stderr := stderr w |}.

Definition print_out (line : string) (w : world) : world :=
  {| files := files w; directories := directories w;
     stdout := stdout w ++ [line]; stderr := stderr w |}.

Definition print_err (line : string) (w : world) : world :=
  {| files := files w; directories := directories w;
     stdout := stdout w; stderr := stderr w ++ [line] |}.

(** [warnings.warn] for each of [lines], under the default filters: the
    warning is shown on the error stream. *)
Definition show_warnings (lines : list string) (w : world) : world :=
  {| files := files w; directories := directories w;
     stdout := stdout w; stderr := stderr w ++ lines |}.

End Os.

Definition get_text_or_empty (el : option node) : string :=
  match el with
  | Some e => get_text " " e
  | None => ""
  end.

Section Script.

Variable urljoin : string -> string -> string.
(** [BeautifulSoup(text, "html.parser")]: the warnings the constructor
    issues, as the lines they make on the error stream (for instance a
    [MarkupResemblesLocatorWarning] for a text that looks like a URL or a
    file name rather than markup), and the tree. *)
Variable parse_html : string -> list string * node.
(** [json.dumps(payload, ensure_ascii=False, indent=2)] *)
Variable json_dumps : payload -> string.

(** [scrape_week]: [inl msg] when it raises.  The world is threaded for
    what the parser writes to the error stream. *)
Definition scrape_week (env : environment) (week : Z) (w : world)
  : (string + payload) * world :=
  let url := BASE +:+ MANUAL_PATH_format week in
  match http_get env url with
  | inl msg => (inl msg, w)
  | inr r =>
      match raise_for_status r with
      | Some msg => (inl msg, w)
      | None =>
          let made := parse_html (text r) in
          let w := Os.show_warnings (fst made) w in
          let sp := snd made in
          let small_heading_el := select_one_title_number sp in
          let big_heading_el := select_one_h1 sp in
          let small := get_text_or_empty small_heading_el in
          let big := get_text_or_empty big_heading_el in
          let image := pick_top_image urljoin sp in
          (inr {| generated_at_utc := now_utc_iso env;
                  week_number := week;
                  source_url := url;
                  image_url := image;
                  small_heading := small;
                  big_heading := big |}, w)
      end
  end.

(** [main], then the interpreter's exit: an exception that leaves [main]
    is reported on the error stream and the exit status is 1. *)
Definition uncaught (msg : string) (w : world) : Z * world :=
  (1, Os.print_err ("Traceback (most recent call last): " +:+ msg) w).

Definition main (env : environment) (w : world) : Z * world :=
  let week := iso_week_number (today env) in
  let scraped := scrape_week env week w in
  let w := snd scraped in
  match fst scraped with
  | inl e =>
      let line :=
        "ERROR scraping week " +:+ PyStr.str_of_Z week +:+ ": " +:+ e in
      let w := Os.print_err line w in
      uncaught e w
  | inr p =>
      match Os.makedirs (Os.dirname OUT_JSON) w with
      | inl e => uncaught e w
      | inr w =>
          match Os.write_file OUT_JSON (json_dumps p) w with
          | inl e => uncaught e w
          | inr w =>
              let line :=
                "Wrote " +:+ OUT_JSON +:+ " for week "
                +:+ PyStr.str_of_Z week +:+ ": " +:+ big_heading p in
              let w := Os.print_out line w in
              (0, w)
          end
      end
  end.

End Script.

(* ===================================================================== *)
(** * Sample documents                                                    *)
(* ===================================================================== *)

Module Samples.

(** A resolution function to run the samples with.  For an [https] origin
    that has no path of its own (as [BASE]) it returns what [urljoin]
    returns on a reference that carries a scheme, on a network-path
    reference and on a path, dot segments and blank characters apart. *)
Definition resolve (base u : string) : string :=
  if PyStr.contains "://" u || PyStr.startswith "data:" u then u
  else if PyStr.startswith "//" u then "https:" +:+ u
  else if PyStr.startswith "/" u then base +:+ u
  else base +:+ "/" +:+ u.

Definition elem (nm : string) (a : list (string * string))
    (cs : list node) : node :=
  Tag nm (list_to_map a) cs.

Definition img (src : string) : node := elem "img" [("src", src)] [].
Definition source (srcset : string) : node :=
  elem "source" [("srcset", srcset)] [].

(** [<main><img src="/a.jpg"></main>
     <article><picture><source srcset="/b.jpg 100w"></picture></article>] *)
Definition two_roots : node :=
  soup [ elem "main" [] [ img "/a.jpg" ];
         elem "article" [] [ elem "picture" [] [ source "/b.jpg 100w" ] ] ].

(** [<main><img src="/a.jpg"><picture><source srcset="/b.jpg 100w">
     </picture></main>] *)
Definition one_root_main : node :=
  elem "main" []
    [ img "/a.jpg"; elem "picture" [] [ source "/b.jpg 100w" ] ].
Definition one_root : node := soup [ one_root_main ].

(** [<picture><source srcset=" "><source srcset="a.jpg, b.jpg">
     <img src="/c.jpg"></picture>] *)
Definition plain_list_picture : node :=
  elem "picture" [] [ source " "; source "a.jpg, b.jpg"; img "/c.jpg" ].

(** [<img srcset="/big.jpg 2x, /small.jpg" data-src="/lazy.jpg">] *)
Definition density_img : node :=
  elem "img" [("srcset", "/big.jpg 2x, /small.jpg");
              ("data-src", "/lazy.jpg")] [].

(** [<img srcset="/plain.jpg" data-srcset="/wide.jpg 800w" src="/s.jpg">] *)
Definition masked_img : node :=
  elem "img" [("srcset", "/plain.jpg"); ("data-srcset", "/wide.jpg 800w");
              ("src", "/s.jpg")] [].

(** [<img src="/a.svg#v">] *)
Definition svg_fragment : node := soup [ img "/a.svg#v" ].

Definition str (s : string) : node := NavigableString PlainText s.

(** [<p>hello</p>]: no image, no heading *)
Definition plain : node := soup [ elem "p" [] [ str "hello" ] ].

(** [<header><img src="/logo.png"></header><main><p>text</p></main>
     <img src="/late.jpg">] *)
Definition outside_main : node :=
  soup [ elem "header" [] [ img "/logo.png" ];
         elem "main" [] [ elem "p" [] [ str "text" ] ];
         img "/late.jpg" ].

(** [<p class="lead title-number"> Week <b>5</b> </p><h1>Lesson  5</h1>] *)
Definition headings : node :=
  soup [ elem "p" [("class", "lead title-number")]
           [ str " Week "; elem "b" [] [ str "5" ]; str " " ];
         elem "h1" [] [ str "Lesson  5" ] ].

(** [<h1>Les<b>son</b> 5<!-- draft --><script>var x</script></h1>] *)
Definition split_heading : node :=
  soup [ elem "h1" []
           [ str "Les"; elem "b" [] [ str "son" ]; str " 5";
             NavigableString Comment " draft ";
             elem "script" [] [ NavigableString Script "var x" ] ] ].

(** A parser and a serialiser to run the samples with: the parser knows
    three pages, the serialiser writes the fields without escaping. *)
Definition headings_page : string :=
  "<p class='lead title-number'> Week <b>5</b> </p><h1>Lesson  5</h1>".
Definition plain_page : string := "<p>hello</p>".
Definition split_heading_page : string :=
  "<h1>Les<b>son</b> 5<!-- draft --><script>var x</script></h1>".

(** a page that is an address and nothing else *)
Definition address_page : string := "https://example.org/moved".

(** The constructor's test for a text that looks like a URL: short, no
    [<], no blank, and an [http:] or [https:] prefix. *)
Definition markup_is_url (text : string) : bool :=
  (String.length text <=? 256)%nat
  && negb (PyStr.contains "<" text)
  && (PyStr.startswith "http:" text || PyStr.startswith "https:" text)
  && negb (PyStr.contains " " text).

Definition locator_warning : string :=
  "MarkupResemblesLocatorWarning: "
  +:+ "The input looks more like a URL than markup.".

Definition parse (text : string) : list string * node :=
  ( (if markup_is_url text then [locator_warning] else []),
    if String.eqb text headings_page then headings
    else if String.eqb text plain_page then plain
    else if String.eqb text split_heading_page then split_heading
    else soup [ str text ] ).

Definition dumps (p : payload) : string :=
  "{ generated_at_utc: " +:+ generated_at_utc p
  +:+ ", week_number: " +:+ PyStr.str_of_Z (week_number p)
  +:+ ", source_url: " +:+ source_url p
  +:+ ", image_url: " +:+ image_url p
  +:+ ", small_heading: " +:+ small_heading p
  +:+ ", big_heading: " +:+ big_heading p +:+ " }".

(** A run on 2026-11-04 against a server that answers every request with
    [status] and the page [body]. *)
Definition answering (status : Z) (phrase body : string) : environment :=
  {| today := {| year := 2026; month := 11; day := 4 |};
     now_utc_iso := "2026-11-04T06:00:00+00:00";
     http_get := fun url =>
       inr {| status_code := status; reason := phrase;
              url_of := url; text := body |} |}.

Definition week45_url : string :=
  "https://www.churchofjesuschrist.org/study/manual/"
  +:+ "come-follow-me-for-home-and-church-old-testament-2026/45?lang=eng".

Definition new_years_eve : date := {| year := 2026; month := 12; day := 31 |}.

Definition mixed_list : string :=
  "c.jpg 300w, b.jpg 640w, b.jpg 64w, x.jpg 2x".

Definition empty_world : world :=
  {| files := ∅; directories := ∅; stdout := []; stderr := [] |}.

(** a world where the path [data] is taken by a regular file *)
Definition data_is_a_file : world :=
  {| files := {[ "data" := "notes" ]}; directories := ∅;
     stdout := []; stderr := [] |}.

End Samples.

(* ===================================================================== *)
(** * Vocabulary of the properties                                        *)
(* ===================================================================== *)

Module SrcsetSpec.
Import PyStr.

Abbreviation cand := (N * string)%type.

(** A way of matching [(\S+)\s+(\d+)w] at the start of [part] with groups
    [g1] and [g2]. *)
Definition pattern_matches (part g1 g2 : string) : Prop :=
  exists ws rest,
    part = g1 +:+ ws +:+ g2 +:+ "w" +:+ rest
    /\ g1 <> "" /\ all nonspace g1 = true
    /\ ws <> "" /\ all isspace ws = true
    /\ g2 <> "" /\ all isdecimal g2 = true.

(** The winner among candidates, read from the right: a candidate replaces
    the winner of the candidates after it only when it is strictly wider. *)
Definition pick (x : cand) (m : option cand) : cand :=
  match m with
  | None => x
  | Some m => if (fst m <? fst x)%N then x else m
  end.

Definition widest (l : list cand) : option cand :=
  foldr (fun x acc => Some (pick x acc)) None l.

Definition ascending (l : list cand) : Prop :=
  StronglySorted (fun a b => (fst a <= fst b)%N) l.

End SrcsetSpec.

Section SelectorSpec.

Variable urljoin : string -> string -> string.

(** The URL the loop body of [pick_top_image] tests for an element: the
    extracted URL, stripped and resolved once more; empty when the
    element yields none. *)
Definition candidate_url (el : located) : string :=
  let url := PyStr.strip (extract urljoin (element el)) in
  if PyStr.nonempty url then absolute_url urljoin url else "".

(** A URL the filter lets through. *)
Definition acceptable (url : string) : bool :=
  PyStr.nonempty url && negb (_looks_like_bad_image url).

(** The [seen] set holds rejected URLs only. *)
Definition all_rejected (seen : gset string) : Prop :=
  forall u, u ∈ seen -> acceptable u = false.

(** The first acceptable URL among the elements [els], taken in order. *)
Definition first_acceptable (els : list located) : option string :=
  head (List.filter acceptable (candidate_url <$> els)).

(** The elements visited below one root: the three passes, each in
    document order. *)
Definition traversal (root : located) : list located :=
  select SelPicture root ++ select SelFigureImg root ++ select SelImg root.

(** The elements visited by the scoped search, root after root. *)
Definition scoped_traversal (sp : node) : list located :=
  flat_map traversal (search_roots sp).

(** The whole document as a search root. *)
Definition whole (sp : node) : located := Loc [] sp.

End SelectorSpec.

Module UrlSpec.

(** The part of a URL before its query and fragment. *)
Fixpoint before_query_and_fragment (u : string) : string :=
  match u with
  | EmptyString => EmptyString
  | String c u' =>
      if Ascii.eqb c "?" || Ascii.eqb c "#" then EmptyString
      else String c (before_query_and_fragment u')
  end.

(** The path of the URL ends in [.svg], in any letter case. *)
Definition has_svg_extension (u : string) : bool :=
  PyStr.endswith ".svg"
    (PyStr.lower (before_query_and_fragment (PyStr.strip u))).

(** The URL is an inline image. *)
Definition is_data_image (u : string) : bool :=
  PyStr.startswith "data:image" (PyStr.lower (PyStr.strip u)).

End UrlSpec.

Module ExtractSpec.

(** a character that can stand in a URL of a candidate list: neither
    blank nor a comma *)
Definition url_char (c : ascii) : bool :=
  PyStr.nonspace c && negb (Ascii.eqb c ",").

(** the tag without its two candidate-list attributes *)
Definition without_srcset (tag : node) : node :=
  match tag with
  | Tag nm a cs => Tag nm (delete "srcset" (delete "data-srcset" a)) cs
  | NavigableString k s => NavigableString k s
  end.

(** a [source] element that the loop of [_pick_from_picture_tag] passes
    over: no candidate list, or one that yields neither a width candidate
    nor a first URL *)
Definition unusable (src : node) : Prop :=
  let ss := PyStr.strip (get src "srcset") in
  ss = "" \/ (candidates_of ss = [] /\ first_url ss = "").

End ExtractSpec.

(** An element that the image scan looks at. *)
Definition is_image (el : located) : Prop :=
  name (element el) = "picture" \/ name (element el) = "img".

(** [p] occurs in [s] as a run of consecutive characters. *)
Definition occurs (p s : string) : Prop :=
  exists a b, s = a +:+ p +:+ b.

(** the tag without the attribute [key] *)
Definition without_attr (key : string) (tag : node) : node :=
  match tag with
  | Tag nm a cs => Tag nm (delete key a) cs
  | NavigableString k s => NavigableString k s
  end.

(** the character of the decimal digit [n], for [0 <= n <= 9] *)
Definition digit_char (n : Z) : ascii := ascii_of_N (48 + Z.to_N n).

(** The address of the manual without the week: what stands before the
    replacement field of [MANUAL_PATH], after [BASE]. *)
Definition manual_url_prefix : string :=
  "https://www.churchofjesuschrist.org/study/manual/"
  +:+ "come-follow-me-for-home-and-church-old-testament-2026/".

(** a character that is neither a comma nor a space *)
Definition not_comma_or_space (c : ascii) : bool :=
  negb (Ascii.eqb c ",") && negb (Ascii.eqb c " ").

(** The words of the specification for a heading, "the whitespace-normalized
    concatenated text" of an element: its strings put together as they
    stand, then every run of whitespace made one blank and none left at
    the ends. *)
Definition concatenated_text (el : node) : string :=
  foldr String.append "" (text_pieces el).
Definition whitespace_normalized (s : string) : string :=
  PyStr.join " " (PyStr.words s).
Definition whitespace_normalized_text (el : node) : string :=
  whitespace_normalized (concatenated_text el).

(** Every string below [n] with its class, in document order. *)
Fixpoint string_nodes (n : node) : list (string_class * string) :=
  match n with
  | NavigableString k s => [(k, s)]
  | Tag _ _ cs => flat_map string_nodes cs
  end.

(** The classes of plain text: not a comment, not the content of a script,
    a style sheet or a template, not a ruby annotation, no declaration. *)
Definition is_text (k : string_class) : bool :=
  match k with PlainText | CData => true | _ => false end.

(** The strings of plain text below [el], in document order. *)
Definition text_strings (el : node) : list string :=
  snd <$> List.filter (fun ks => is_text (fst ks)) (string_nodes el).

(* ===================================================================== *)
(** * Properties                                                          *)
(* ===================================================================== *)

(** ** The definitions at work *)

Example strip_ex : PyStr.strip "  a b  " = "a b".
Proof. reflexivity. Qed.
Example words_ex :
  PyStr.words "  title-number  lead x " = ["title-number"; "lead"; "x"].
Proof. reflexivity. Qed.
Example split_ex : PyStr.split "," "a,,b," = ["a"; ""; "b"; ""].
Proof. reflexivity. Qed.
Example fmt_ex :
  PyStr.format_02d 5 = "05" /\ PyStr.format_02d 52 = "52"
  /\ PyStr.str_of_Z 0 = "0".
Proof. repeat split; vm_compute; reflexivity. Qed.
Example iso_week_2026_11_04 :
  iso_week_number {| year := 2026; month := 11; day := 4 |} = 45.
Proof. reflexivity. Qed.
Example iso_week_2026_12_31 :
  Calendar.isocalendar_week {| year := 2026; month := 12; day := 31 |} = 53
  /\ iso_week_number {| year := 2026; month := 12; day := 31 |} = 52.
Proof. split; reflexivity. Qed.
Example iso_week_2027_01_01 :
  iso_week_number {| year := 2027; month := 1; day := 1 |} = 52.
Proof. reflexivity. Qed.
Example iso_week_2025_12_29 :
  iso_week_number {| year := 2025; month := 12; day := 29 |} = 1.
Proof. reflexivity. Qed.
Example largest_ex1 :
  _largest_from_srcset "a.jpg 100w, b.jpg 640w, c.jpg 300w" = "b.jpg".
Proof. reflexivity. Qed.
Example largest_ex2 :
  _largest_from_srcset "a.jpg 100w, b.jpg 100w" = "b.jpg".
Proof. reflexivity. Qed.
Example largest_ex3 :
  _largest_from_srcset "a.jpg, b.jpg" = "".
Proof. reflexivity. Qed.
Example largest_ex4 :
  _largest_from_srcset "a.jpg 1.5x, b.jpg 00200w, c.jpg 30wide" = "b.jpg".
Proof. reflexivity. Qed.
Example two_roots_ex :
  pick_top_image Samples.resolve Samples.two_roots
  = "https://www.churchofjesuschrist.org/a.jpg".
Proof. vm_compute. reflexivity. Qed.
Example one_root_ex :
  pick_top_image Samples.resolve Samples.one_root
  = "https://www.churchofjesuschrist.org/b.jpg".
Proof. vm_compute. reflexivity. Qed.
Example svg_fragment_ex :
  pick_top_image Samples.resolve Samples.svg_fragment
  = "https://www.churchofjesuschrist.org/a.svg#v".
Proof. vm_compute. reflexivity. Qed.
Example outside_main_ex :
  pick_top_image Samples.resolve Samples.outside_main
  = "https://www.churchofjesuschrist.org/late.jpg".
Proof. vm_compute. reflexivity. Qed.
Example headings_ex :
  (get_text " " <$> select_one_title_number Samples.headings) = Some "Week 5"
  /\ (get_text " " <$> select_one_h1 Samples.headings) = Some "Lesson  5".
Proof. split; vm_compute; reflexivity. Qed.

(** ** Week calculator *)

Module CalendarFacts.
Import Calendar.

Lemma is_leap_spec y :
  is_leap y = true <-> (y mod 4 = 0 /\ (y mod 100 <> 0 \/ y mod 400 = 0)).
Proof.
  unfold is_leap.
  rewrite andb_true_iff, orb_true_iff, negb_true_iff.
  rewrite !Z.eqb_eq, Z.eqb_neq. tauto.
Qed.

Lemma days_before_year_succ y :
  days_before_year (y + 1) = days_before_year y + year_length y.
Proof.
  unfold days_before_year, year_length.
  replace (y + 1 - 1) with y by lia.
  destruct (is_leap y) eqn:L.
  - apply is_leap_spec in L. Z.div_mod_to_equations. lia.
  - assert (~ (y mod 4 = 0 /\ (y mod 100 <> 0 \/ y mod 400 = 0))) as NL.
    { rewrite <- is_leap_spec. congruence. }
    Z.div_mod_to_equations. lia.
Qed.

Lemma day_of_year_bounds y m d :
  1 <= m <= 12 -> 1 <= d <= days_in_month y m ->
  1 <= days_before_month y m + d <= year_length y.
Proof.
  intros Hm Hd.
  assert (m = 1 \/ m = 2 \/ m = 3 \/ m = 4 \/ m = 5 \/ m = 6 \/ m = 7
          \/ m = 8 \/ m = 9 \/ m = 10 \/ m = 11 \/ m = 12) as Hcases by lia.
  unfold days_before_month, days_in_month, year_length in *.
  destruct (is_leap y);
    repeat (destruct Hcases as [-> | Hcases]); try subst m;
    match goal with
    | |- context [Z.to_nat ?e] =>
        let v := eval vm_compute in (Z.to_nat e) in
        change (Z.to_nat e) with v
    end;
    cbn in *; lia.
Qed.

(** The Monday of ISO week 1 lies within three days of January 1st and,
    as every Monday, has an ordinal congruent to 1 modulo 7. *)
Lemma isoweek1monday_spec y :
  exists delta q,
    isoweek1monday y = days_before_year y + 1 + delta
    /\ -3 <= delta <= 3
    /\ isoweek1monday y = 7 * q + 1.
Proof.
  unfold isoweek1monday, ymd2ord.
  change (days_before_month y 1)
    with (0 + (if (2 <? 1) && is_leap y then 1 else 0)).
  change (2 <? 1) with false. cbn [andb].
  set (F := days_before_year y + (0 + 0) + 1).
  assert (F = days_before_year y + 1) as HF by (unfold F; lia).
  destruct (Z.ltb_spec 3 ((F + 6) mod 7)) as [H | H].
  - exists (7 - (F + 6) mod 7), ((F + 6) / 7).
    Z.div_mod_to_equations. lia.
  - exists (- ((F + 6) mod 7)), ((F + 6) / 7 - 1).
    Z.div_mod_to_equations. lia.
Qed.

Lemma isocalendar_week_range d :
  valid_date d -> 1 <= isocalendar_week d <= 53.
Proof.
  intros (Hy & Hm & Hd).
  pose proof (day_of_year_bounds _ _ _ Hm Hd) as Hk.
  destruct (isoweek1monday_spec (year d)) as (d0 & q0 & E0 & B0 & M0).
  destruct (isoweek1monday_spec (year d - 1)) as (d1 & q1 & E1 & B1 & M1).
  pose proof (days_before_year_succ (year d - 1)) as Hs.
  replace (year d - 1 + 1) with (year d) in Hs by lia.
  assert (365 <= year_length (year d - 1) <= 366) as Hl1
    by (unfold year_length; destruct is_leap; lia).
  assert (365 <= year_length (year d) <= 366) as Hl0
    by (unfold year_length; destruct is_leap; lia).
  unfold isocalendar_week, ymd2ord.
  set (today := days_before_year (year d)
                + days_before_month (year d) (month d) + day d) in *.
  destruct (Z.ltb_spec ((today - isoweek1monday (year d)) / 7) 0)
    as [Hneg | Hpos].
  - assert (-3 <= today - isoweek1monday (year d) < 0) as Hr.
    { split; [unfold today; lia |].
      Z.div_mod_to_equations. lia. }
    assert (361 <= today - isoweek1monday (year d - 1) <= 370) as Hr'.
    { assert (isoweek1monday (year d) - isoweek1monday (year d - 1)
              = 7 * (q0 - q1)) as Hmul by lia.
      assert (359 <= isoweek1monday (year d) - isoweek1monday (year d - 1)
              <= 372) as Hb by lia.
      assert (q0 - q1 = 52 \/ q0 - q1 = 53) as [Hq | Hq] by lia; lia. }
    Z.div_mod_to_equations. lia.
  - destruct ((52 <=? _) && _); [lia |].
    assert (today - isoweek1monday (year d) <= 368) by (unfold today; lia).
    Z.div_mod_to_equations. lia.
Qed.

End CalendarFacts.

(** C7.  For every valid date the week calculator returns an integer between
    1 and 52: the ISO-8601 week of the date lies between 1 and 53, the result
    is that week, and 52 when that week is 53.  (The function is total: it
    has a result for every date.) *)
Theorem iso_week_number_range (d : date) :
  Calendar.valid_date d ->
  1 <= Calendar.isocalendar_week d <= 53
  /\ 1 <= iso_week_number d <= 52
  /\ iso_week_number d
     = (if Calendar.isocalendar_week d =? 53 then 52
        else Calendar.isocalendar_week d).
Proof.
  intros Hv.
  pose proof (CalendarFacts.isocalendar_week_range d Hv) as Hr.
  unfold iso_week_number.
  destruct (Z.eqb_spec (Calendar.isocalendar_week d) 53) as [E | NE]; lia.
Qed.

Lemma iso_week_number_range_witness :
  1 <= Calendar.isocalendar_week Samples.new_years_eve <= 53
  /\ 1 <= iso_week_number Samples.new_years_eve <= 52
  /\ iso_week_number Samples.new_years_eve
     = (if Calendar.isocalendar_week Samples.new_years_eve =? 53 then 52
        else Calendar.isocalendar_week Samples.new_years_eve).
Proof.
  apply (iso_week_number_range Samples.new_years_eve).
  unfold Calendar.valid_date. cbn. lia.
Defined.

(** ** Python string facts *)

Module PyStrFacts.
Import PyStr.

Lemma nonempty_false s : nonempty s = false <-> s = "".
Proof. destruct s; cbn; split; congruence. Qed.

Lemma nonempty_true s : nonempty s = true <-> s <> "".
Proof. destruct s; cbn; split; congruence. Qed.

Lemma app_nil_l s : "" +:+ s = s.
Proof. reflexivity. Qed.

Lemma app_cons c a b : String c a +:+ b = String c (a +:+ b).
Proof. reflexivity. Qed.

Lemma app_nil_r s : s +:+ "" = s.
Proof.
  induction s as [| c s IH]; [reflexivity |]. now rewrite app_cons, IH.
Qed.

Lemma app_assoc a b c : (a +:+ b) +:+ c = a +:+ (b +:+ c).
Proof.
  induction a as [| x a IH]; [reflexivity |].
  now rewrite !app_cons, IH.
Qed.

Lemma split_nonnil sep s : split sep s <> [].
Proof.
  destruct s as [| c s]; cbn [split]; [congruence |].
  destruct (Ascii.eqb c sep); [congruence |].
  destruct (split sep s); congruence.
Qed.

(** Splitting distributes over a separator that is written out. *)
Lemma split_app sep a b :
  split sep (a +:+ String sep b) = split sep a ++ split sep b.
Proof.
  induction a as [| c a IH]; rewrite ?app_nil_l, ?app_cons; cbn [split].
  - now rewrite Ascii.eqb_refl.
  - destruct (Ascii.eqb c sep) eqn:E.
    + now rewrite IH.
    + rewrite IH.
      pose proof (split_nonnil sep a) as Hn.
      destruct (split sep a); [congruence | reflexivity].
Qed.

(** A text without the separator is one field. *)
Lemma split_no_sep sep s :
  contains (String sep "") s = false -> split sep s = [s].
Proof.
  induction s as [| c s IH]; cbn [split contains startswith];
    [reflexivity |].
  rewrite (Ascii.eqb_sym sep c).
  destruct (Ascii.eqb c sep) eqn:E; cbn [andb orb]; [discriminate |].
  intros H. now rewrite (IH H).
Qed.

End PyStrFacts.

(** ** Responsive candidate lists *)

Module SrcsetFacts.
Import SrcsetSpec.

Lemma insert_by_width_perm x l : insert_by_width x l ≡ₚ x :: l.
Proof.
  induction l as [| y l IH]; cbn; [reflexivity |].
  destruct (fst x <=? fst y)%N; [reflexivity |].
  rewrite IH. apply perm_swap.
Qed.

Lemma sort_by_width_perm l : sort_by_width l ≡ₚ l.
Proof.
  induction l as [| x l IH]; cbn; [reflexivity |].
  now rewrite insert_by_width_perm, IH.
Qed.

Lemma insert_by_width_ascending x l :
  ascending l -> ascending (insert_by_width x l).
Proof.
  unfold ascending. induction 1 as [| y l Hs IH Hy]; cbn.
  - repeat constructor.
  - destruct (N.leb_spec (fst x) (fst y)) as [Hle | Hgt].
    + constructor; [now constructor |].
      constructor; [exact Hle |].
      eapply Forall_impl; [exact Hy |]. cbn. intros z Hz. lia.
    + constructor; [exact IH |].
      rewrite insert_by_width_perm. constructor; [lia | exact Hy].
Qed.

Lemma sort_by_width_ascending l : ascending (sort_by_width l).
Proof.
  induction l as [| x l IH]; cbn; [constructor |].
  now apply insert_by_width_ascending.
Qed.

(** The sort is stable: candidates of one width keep their order. *)
Lemma insert_by_width_stable k x l :
  List.filter (fun c => (fst c =? k)%N) (insert_by_width x l)
  = List.filter (fun c => (fst c =? k)%N) (x :: l).
Proof.
  induction l as [| y l IH]; [reflexivity |].
  cbn [insert_by_width].
  destruct (N.leb_spec (fst x) (fst y)) as [Hle | Hgt]; [reflexivity |].
  cbn [List.filter] in *. rewrite IH.
  destruct (N.eqb_spec (fst y) k), (N.eqb_spec (fst x) k);
    try reflexivity; lia.
Qed.

Lemma sort_by_width_stable k l :
  List.filter (fun c => (fst c =? k)%N) (sort_by_width l)
  = List.filter (fun c => (fst c =? k)%N) l.
Proof.
  induction l as [| x l IH]; [reflexivity |].
  cbn [sort_by_width]. rewrite insert_by_width_stable.
  cbn [List.filter]. now rewrite IH.
Qed.

Lemma ascending_last_max l m :
  ascending l -> last l = Some m -> Forall (fun y => (fst y <= fst m)%N) l.
Proof.
  unfold ascending. induction 1 as [| y l Hs IH Hy]; intros Hl.
  - constructor.
  - destruct l as [| z l'].
    + cbn in Hl. injection Hl as <-. repeat constructor. lia.
    + change (last (y :: z :: l')) with (last (z :: l')) in Hl.
      specialize (IH Hl). constructor; [| exact IH].
      inversion IH as [| ? ? Hz _]; subst.
      inversion Hy as [| ? ? Hyz _]; subst. lia.
Qed.

Lemma insert_by_width_nonnil x l : insert_by_width x l <> [].
Proof. destruct l; cbn; [congruence |]. destruct (_ <=? _)%N; congruence. Qed.

Lemma last_cons_nonnil {A} (y : A) l : l <> [] -> last (y :: l) = last l.
Proof. destruct l; [congruence | reflexivity]. Qed.

Lemma last_insert_by_width x l :
  ascending l -> last (insert_by_width x l) = Some (pick x (last l)).
Proof.
  intros Hs. induction Hs as [| y l Hs IH Hy]; [reflexivity |].
  cbn [insert_by_width].
  destruct (N.leb_spec (fst x) (fst y)) as [Hle | Hgt].
  - rewrite last_cons_nonnil by congruence.
    destruct (last (y :: l)) as [m |] eqn:Hl.
    + cbn. pose proof (ascending_last_max (y :: l) m) as Hm.
      assert (fst y <= fst m)%N as Hym.
      { assert (ascending (y :: l)) as Ha by now constructor.
        specialize (Hm Ha Hl). now inversion Hm. }
      destruct (N.ltb_spec (fst m) (fst x)); [lia | reflexivity].
    + apply last_None in Hl. discriminate.
  - rewrite last_cons_nonnil by apply insert_by_width_nonnil.
    rewrite IH. destruct l as [| z l']; cbn [last pick].
    + destruct (N.ltb_spec (fst y) (fst x)); [reflexivity | lia].
    + reflexivity.
Qed.

(** What the sort followed by [candidates[-1]] computes. *)
Lemma last_sort_by_width l : last (sort_by_width l) = widest l.
Proof.
  induction l as [| x l IH]; [reflexivity |].
  cbn [sort_by_width]. rewrite last_insert_by_width
    by apply sort_by_width_ascending.
  now rewrite IH.
Qed.

Lemma largest_from_srcset_widest srcset :
  _largest_from_srcset srcset
  = from_option snd "" (widest (candidates_of srcset)).
Proof.
  unfold _largest_from_srcset.
  destruct srcset as [| c s]; [reflexivity |].
  cbn [PyStr.nonempty negb].
  destruct (candidates_of (String c s)) as [| x l] eqn:E; [reflexivity |].
  rewrite last_sort_by_width.
  now destruct (widest (x :: l)).
Qed.

Lemma widest_nonnil l : l <> [] -> is_Some (widest l).
Proof. destruct l; [congruence |]. cbn. eauto. Qed.

Lemma widest_max l m :
  widest l = Some m ->
  m ∈ l /\ forall c, c ∈ l -> (fst c <= fst m)%N.
Proof.
  revert m. induction l as [| x l IH]; intros m; [discriminate |].
  change (widest (x :: l)) with (Some (pick x (widest l))).
  destruct (widest l) as [m' |] eqn:E; cbn [pick]; intros [= <-].
  - destruct (IH m' eq_refl) as [Hin Hmax].
    destruct (N.ltb_spec (fst m') (fst x)) as [Hlt | Hge].
    + split; [left |]. intros c [-> | Hc]%elem_of_cons; [lia |].
      specialize (Hmax c Hc). lia.
    + split; [now right |]. intros c [-> | Hc]%elem_of_cons; [lia |].
      now apply Hmax.
  - destruct l; [| discriminate].
    split; [left |]. intros c [-> | Hc]%elem_of_cons; [lia |].
    inversion Hc.
Qed.

(** The last of the widest candidates wins. *)
Lemma widest_last_occurrence l1 c l2 :
  (forall x, x ∈ l1 -> (fst x <= fst c)%N) ->
  (forall x, x ∈ l2 -> (fst x < fst c)%N) ->
  widest (l1 ++ c :: l2) = Some c.
Proof.
  intros H1 H2.
  assert (widest (c :: l2) = Some c) as Hc.
  { change (widest (c :: l2)) with (Some (pick c (widest l2))).
    f_equal. destruct (widest l2) as [m |] eqn:E; [| reflexivity].
    cbn [pick]. apply widest_max in E as [Hin _]. specialize (H2 m Hin).
    destruct (N.ltb_spec (fst m) (fst c)); [reflexivity | lia]. }
  induction l1 as [| x l1 IH]; [exact Hc |].
  change (widest ((x :: l1) ++ c :: l2))
    with (Some (pick x (widest (l1 ++ c :: l2)))).
  rewrite IH by (intros; apply H1; now right).
  cbn [pick]. f_equal. specialize (H1 x ltac:(left)).
  destruct (N.ltb_spec (fst c) (fst x)); [lia | reflexivity].
Qed.

Lemma collect_candidates_app l1 l2 :
  collect_candidates (l1 ++ l2)
  = collect_candidates l1 ++ collect_candidates l2.
Proof.
  induction l1 as [| p l1 IH]; [reflexivity |].
  cbn. destruct (match_candidate (PyStr.strip p)); cbn; now rewrite IH.
Qed.

Lemma candidates_of_comma a b :
  candidates_of (a +:+ String "," b) = candidates_of a ++ candidates_of b.
Proof.
  unfold candidates_of.
  now rewrite PyStrFacts.split_app, collect_candidates_app.
Qed.

Lemma candidates_of_unparsed p :
  PyStr.contains "," p = false ->
  match_candidate (PyStr.strip p) = None ->
  candidates_of p = [].
Proof.
  intros Hc Hm. unfold candidates_of.
  rewrite (PyStrFacts.split_no_sep "," p Hc). cbn. now rewrite Hm.
Qed.

End SrcsetFacts.

(** ** The pattern of the candidate parser *)

Module PatternFacts.
Import PyStr PyStrFacts SrcsetSpec.

Lemma all_impl (p q : ascii -> bool) s :
  (forall c, p c = true -> q c = true) -> all p s = true -> all q s = true.
Proof.
  intros Hpq. induction s as [| c s IH]; [reflexivity |].
  cbn. intros [Hc Hs]%andb_true_iff.
  now rewrite (Hpq c Hc), (IH Hs).
Qed.

Lemma span_spec p s :
  s = fst (span p s) +:+ snd (span p s)
  /\ all p (fst (span p s)) = true
  /\ stops p (snd (span p s)) = true.
Proof.
  induction s as [| c s (IH1 & IH2 & IH3)]; [now cbn |].
  cbn [span]. destruct (p c) eqn:E.
  - destruct (span p s) as [a b]. cbn [fst snd] in *.
    rewrite app_cons. cbn [all]. rewrite E. now rewrite <- IH1.
  - cbn. now rewrite E.
Qed.

Lemma span_unique p a b :
  all p a = true -> stops p b = true -> span p (a +:+ b) = (a, b).
Proof.
  intros Ha Hb. induction a as [| c a IH].
  - rewrite app_nil_l. destruct b as [| c b]; [reflexivity |].
    cbn in *. now destruct (p c).
  - rewrite app_cons. cbn in *.
    apply andb_true_iff in Ha as [-> Ha]. now rewrite (IH Ha).
Qed.

Lemma decimal_nonspace c : isdecimal c = true -> isspace c = false.
Proof.
  unfold isdecimal, isspace.
  generalize (code c). intros n H.
  repeat match goal with
         | |- context [(?a <=? ?b)%N] => destruct (N.leb_spec a b)
         | |- context [(?a =? ?b)%N] => destruct (N.eqb_spec a b)
         | H : context [(?a <=? ?b)%N] |- _ => destruct (N.leb_spec a b)
         end; cbn in *; try reflexivity; try discriminate; lia.
Qed.

Lemma stops_head (p : ascii -> bool) s t :
  s <> "" -> all (fun c => negb (p c)) s = true -> stops p (s +:+ t) = true.
Proof.
  destruct s as [| c s]; [congruence |]. intros _ H.
  rewrite app_cons. cbn in *.
  now apply andb_true_iff in H as [-> _].
Qed.

(** The parser finds a match exactly when the pattern has one, and then
    the groups are those of the match: the pattern matches in at most one
    way, so the order in which a backtracking matcher tries is immaterial. *)
Lemma match_candidate_spec part n u :
  match_candidate part = Some (n, u)
  <-> exists g2, pattern_matches part u g2 /\ n = int_of_digits g2.
Proof.
  unfold match_candidate. split.
  - pose proof (span_spec nonspace part) as (E1 & A1 & S1).
    destruct (span nonspace part) as [g1 r1]. cbn [fst snd] in *.
    destruct (nonempty g1) eqn:N1; [| discriminate]. cbn [negb].
    pose proof (span_spec isspace r1) as (E2 & A2 & S2).
    destruct (span isspace r1) as [ws r2]. cbn [fst snd] in *.
    destruct (nonempty ws) eqn:N2; [| discriminate]. cbn [negb].
    pose proof (span_spec isdecimal r2) as (E3 & A3 & S3).
    destruct (span isdecimal r2) as [ds r3]. cbn [fst snd] in *.
    destruct (nonempty ds) eqn:N3; [| discriminate]. cbn [negb].
    destruct r3 as [| c rest]; [discriminate |].
    destruct (Ascii.eqb_spec c "w") as [-> | NE].
    + intros [= <- <-]. exists ds. split; [| reflexivity].
      exists ws, rest. apply nonempty_true in N1, N2, N3.
      repeat split; try assumption.
      rewrite E1, E2, E3. reflexivity.
    + intros H. exfalso.
      destruct c as [[] [] [] [] [] [] [] []]; try discriminate H.
      now apply NE.
  - intros (g2 & (ws & rest & -> & N1 & A1 & N2 & A2 & N3 & A3) & ->).
    rewrite (span_unique nonspace u).
    2: exact A1.
    2: { apply stops_head; [exact N2 |].
         apply (all_impl isspace); [| exact A2].
         intros c Hc. unfold nonspace. now rewrite Hc. }
    apply nonempty_true in N1 as ->. cbn [negb].
    rewrite (span_unique isspace ws).
    2: exact A2.
    2: { apply stops_head; [exact N3 |].
         apply (all_impl isdecimal); [| exact A3].
         intros c Hc. now rewrite (decimal_nonspace c Hc). }
    apply nonempty_true in N2 as ->. cbn [negb].
    rewrite (span_unique isdecimal g2); [| exact A3 | reflexivity].
    apply nonempty_true in N3 as ->. reflexivity.
Qed.

End PatternFacts.

(** C3.  From a responsive candidate list that has width descriptors the
    URL selected is one whose declared width is the numerically largest, in
    whatever order the entries stand: two lists with the same candidates in
    different orders select the same URL when one URL has the largest width.
    From ["a.jpg 100w, b.jpg 640w, c.jpg 300w"] the selected URL is [b.jpg].
    An entry that does not parse is dropped on its own: the selection is the
    one made from the list without that entry. *)
Theorem largest_from_srcset_widest_wins :
  (forall srcset,
      candidates_of srcset <> [] ->
      exists w,
        (w, _largest_from_srcset srcset) ∈ candidates_of srcset
        /\ forall c, c ∈ candidates_of srcset -> (fst c <= w)%N)
  /\ (forall s1 s2 w u,
         candidates_of s1 ≡ₚ candidates_of s2 ->
         (w, u) ∈ candidates_of s1 ->
         (forall c, c ∈ candidates_of s1 -> (fst c < w)%N \/ snd c = u) ->
         _largest_from_srcset s1 = u /\ _largest_from_srcset s2 = u)
  /\ _largest_from_srcset "a.jpg 100w, b.jpg 640w, c.jpg 300w" = "b.jpg"
  /\ (forall a p b,
         PyStr.contains "," p = false ->
         match_candidate (PyStr.strip p) = None ->
         _largest_from_srcset (a +:+ "," +:+ p +:+ "," +:+ b)
         = _largest_from_srcset (a +:+ "," +:+ b)
         /\ _largest_from_srcset (p +:+ "," +:+ b) = _largest_from_srcset b
         /\ _largest_from_srcset (a +:+ "," +:+ p) = _largest_from_srcset a).
Proof.
  assert (forall srcset,
             candidates_of srcset <> [] ->
             exists w,
               (w, _largest_from_srcset srcset) ∈ candidates_of srcset
               /\ forall c, c ∈ candidates_of srcset -> (fst c <= w)%N)
    as Hmax.
  { intros srcset Hne.
    rewrite SrcsetFacts.largest_from_srcset_widest.
    destruct (SrcsetFacts.widest_nonnil _ Hne) as [[w u] Hw].
    rewrite Hw. cbn [from_option snd].
    apply SrcsetFacts.widest_max in Hw as [Hin Hle].
    exists w. split; [exact Hin | exact Hle]. }
  assert (forall s w u,
             (w, u) ∈ candidates_of s ->
             (forall c, c ∈ candidates_of s -> (fst c < w)%N \/ snd c = u) ->
             _largest_from_srcset s = u) as Huniq.
  { intros s w u Hin Hothers.
    destruct (Hmax s) as (w' & Hin' & Hle').
    { intros E. rewrite E in Hin. inversion Hin. }
    specialize (Hle' _ Hin). cbn in Hle'.
    destruct (Hothers _ Hin') as [Hlt | Heq]; cbn in *; [lia | exact Heq]. }
  split; [exact Hmax |]. split; [| split; [reflexivity |]].
  - intros s1 s2 w u Hperm Hin Hothers. split.
    + now apply (Huniq s1 w u).
    + apply (Huniq s2 w u).
      * now rewrite <- Hperm.
      * intros c Hc. apply Hothers. now rewrite Hperm.
  - intros a p b Hc Hm.
    pose proof (SrcsetFacts.candidates_of_unparsed p Hc Hm) as Hp.
    rewrite !SrcsetFacts.largest_from_srcset_widest.
    change ("," +:+ p +:+ "," +:+ b) with (String "," (p +:+ String "," b)).
    change ("," +:+ b) with (String "," b).
    change ("," +:+ p) with (String "," p).
    rewrite !SrcsetFacts.candidates_of_comma, Hp.
    rewrite app_nil_r. cbn [app]. auto.
Qed.

Lemma largest_from_srcset_widest_wins_witness :
  exists w,
    (w, _largest_from_srcset Samples.mixed_list)
      ∈ candidates_of Samples.mixed_list
    /\ forall c, c ∈ candidates_of Samples.mixed_list -> (fst c <= w)%N.
Proof.
  apply (proj1 largest_from_srcset_widest_wins Samples.mixed_list).
  vm_compute. discriminate.
Defined.

(** C4, as stated, fails: when the largest width is declared twice the first
    of the two is not the one selected. *)
Lemma largest_from_srcset_tie_not_first :
  ~ (forall srcset l1 c l2,
        candidates_of srcset = l1 ++ c :: l2 ->
        (forall x, x ∈ l1 -> (fst x < fst c)%N) ->
        (forall x, x ∈ l2 -> (fst x <= fst c)%N) ->
        _largest_from_srcset srcset = snd c).
Proof.
  intros H.
  specialize (H "a.jpg 100w, b.jpg 100w" []
                (100%N, "a.jpg") [(100%N, "b.jpg")] eq_refl).
  assert (_largest_from_srcset "a.jpg 100w, b.jpg 100w" = "a.jpg") as E.
  { apply H.
    - intros x Hx. inversion Hx.
    - intros x Hx. apply list_elem_of_singleton in Hx. subst x. cbn. lia. }
  vm_compute in E. discriminate E.
Qed.

(** C4, amended.  When two or more candidates declare the largest width the
    selector chooses the one that occurs last in the list: the candidate
    that no earlier one exceeds and that every later one is narrower than. *)
Theorem largest_from_srcset_tie_last (srcset : string) l1 c l2 :
  candidates_of srcset = l1 ++ c :: l2 ->
  (forall x, x ∈ l1 -> (fst x <= fst c)%N) ->
  (forall x, x ∈ l2 -> (fst x < fst c)%N) ->
  _largest_from_srcset srcset = snd c.
Proof.
  intros E H1 H2.
  rewrite SrcsetFacts.largest_from_srcset_widest, E.
  now rewrite (SrcsetFacts.widest_last_occurrence l1 c l2 H1 H2).
Qed.

Lemma largest_from_srcset_tie_last_witness :
  _largest_from_srcset "a.jpg 100w, b.jpg 100w, c.jpg 50w" = "b.jpg".
Proof.
  apply (largest_from_srcset_tie_last "a.jpg 100w, b.jpg 100w, c.jpg 50w"
           [(100%N, "a.jpg")] (100%N, "b.jpg") [(50%N, "c.jpg")]).
  - reflexivity.
  - intros x Hx. apply list_elem_of_singleton in Hx. subst x. cbn. lia.
  - intros x Hx. apply list_elem_of_singleton in Hx. subst x. cbn. lia.
Defined.

(** ** The scan of the image selector *)

Module ScanFacts.
Section WithUrljoin.

Variable urljoin : string -> string -> string.

Lemma first_acceptable_cons el els :
  first_acceptable urljoin (el :: els)
  = if acceptable (candidate_url urljoin el)
    then Some (candidate_url urljoin el)
    else first_acceptable urljoin els.
Proof.
  unfold first_acceptable. cbn [fmap list_fmap List.filter].
  now destruct (acceptable (candidate_url urljoin el)).
Qed.

Lemma first_acceptable_app l1 l2 :
  first_acceptable urljoin (l1 ++ l2)
  = match first_acceptable urljoin l1 with
    | Some u => Some u
    | None => first_acceptable urljoin l2
    end.
Proof.
  induction l1 as [| el l1 IH]; [reflexivity |].
  change ((el :: l1) ++ l2) with (el :: (l1 ++ l2)).
  rewrite !first_acceptable_cons.
  now destruct (acceptable (candidate_url urljoin el)).
Qed.

Lemma first_acceptable_Some els u :
  first_acceptable urljoin els = Some u ->
  acceptable u = true /\ exists el, el ∈ els /\ candidate_url urljoin el = u.
Proof.
  induction els as [| el els IH]; [discriminate |].
  rewrite first_acceptable_cons.
  destruct (acceptable (candidate_url urljoin el)) eqn:E.
  - intros [= <-]. split; [exact E |]. exists el. split; [left | reflexivity].
  - intros H. destruct (IH H) as (Ha & el' & Hin & Hu).
    split; [exact Ha |]. exists el'. split; [now right | exact Hu].
Qed.

Lemma first_acceptable_None els :
  first_acceptable urljoin els = None <->
  forall el, el ∈ els -> acceptable (candidate_url urljoin el) = false.
Proof.
  induction els as [| el els IH].
  - split; [| reflexivity]. intros _ el H. inversion H.
  - rewrite first_acceptable_cons.
    destruct (acceptable (candidate_url urljoin el)) eqn:E.
    + split; [discriminate |]. intros H.
      specialize (H el ltac:(left)). congruence.
    + rewrite IH. split.
      * intros H el' [-> | Hin]%elem_of_cons; [exact E | now apply H].
      * intros H el' Hin. apply H. now right.
Qed.

(** One turn of the loop: it returns the candidate URL when that is
    acceptable and otherwise goes on, with only rejected URLs recorded. *)
Lemma visit_spec seen el :
  all_rejected seen ->
  match visit urljoin seen (element el) with
  | inl u => u = candidate_url urljoin el /\ acceptable u = true
  | inr seen' =>
      acceptable (candidate_url urljoin el) = false /\ all_rejected seen'
  end.
Proof.
  intros Hseen. unfold visit, candidate_url.
  destruct (PyStr.nonempty (PyStr.strip (extract urljoin (element el))))
    eqn:E1; cbn [negb].
  2: { split; [reflexivity | exact Hseen]. }
  set (url := absolute_url urljoin _).
  destruct (PyStr.nonempty url) eqn:E2; cbn [negb orb].
  2: { split; [| exact Hseen]. unfold acceptable. now rewrite E2. }
  destruct (bool_decide (url ∈ seen)) eqn:E3.
  { apply bool_decide_eq_true in E3. split; [now apply Hseen | exact Hseen]. }
  destruct (_looks_like_bad_image url) eqn:E4.
  - assert (acceptable url = false) as Hbad
        by (unfold acceptable; now rewrite E2, E4).
    split; [exact Hbad |].
    intros u [->%elem_of_singleton | Hu]%elem_of_union;
      [exact Hbad | now apply Hseen].
  - split; [reflexivity |]. unfold acceptable. now rewrite E2, E4.
Qed.

Lemma scan_elements_spec els : forall seen,
  all_rejected seen ->
  match scan_elements urljoin seen els with
  | inl u => first_acceptable urljoin els = Some u
  | inr seen' => first_acceptable urljoin els = None /\ all_rejected seen'
  end.
Proof.
  induction els as [| el els IH]; intros seen Hseen.
  - split; [reflexivity | exact Hseen].
  - cbn [scan_elements]. rewrite first_acceptable_cons.
    pose proof (visit_spec seen el Hseen) as Hv.
    destruct (visit urljoin seen (element el)) as [u | seen'].
    + destruct Hv as [-> Ha]. now rewrite Ha.
    + destruct Hv as [Hr Hseen']. rewrite Hr. now apply IH.
Qed.

Lemma scan_elements_app l1 l2 seen :
  scan_elements urljoin seen (l1 ++ l2)
  = match scan_elements urljoin seen l1 with
    | inl u => inl u
    | inr seen' => scan_elements urljoin seen' l2
    end.
Proof.
  revert seen. induction l1 as [| el l1 IH]; intros seen; [reflexivity |].
  cbn. destruct (visit urljoin seen (element el)); [reflexivity | apply IH].
Qed.

Lemma scan_selectors_traversal root seen :
  scan_selectors urljoin root seen selectors
  = scan_elements urljoin seen (traversal root).
Proof.
  unfold traversal, selectors. cbn [scan_selectors].
  rewrite scan_elements_app.
  destruct (scan_elements urljoin seen (select SelPicture root)) as [u | s1];
    [reflexivity |].
  rewrite scan_elements_app.
  destruct (scan_elements urljoin s1 (select SelFigureImg root)) as [u | s2];
    [reflexivity |].
  now destruct (scan_elements urljoin s2 (select SelImg root)).
Qed.

Lemma scan_roots_traversal roots : forall seen,
  scan_roots urljoin seen roots
  = scan_elements urljoin seen (flat_map traversal roots).
Proof.
  induction roots as [| r roots IH]; intros seen; [reflexivity |].
  cbn [scan_roots flat_map].
  rewrite scan_elements_app, scan_selectors_traversal.
  destruct (scan_elements urljoin seen (traversal r)); [reflexivity | apply IH].
Qed.

(** The whole selector as one scan: the scoped traversal, then the
    traversal of the whole document. *)
Lemma pick_top_image_scan sp :
  pick_top_image urljoin sp
  = match scan_elements urljoin ∅
            (scoped_traversal sp ++ traversal (whole sp)) with
    | inl u => u
    | inr _ => ""
    end.
Proof.
  unfold pick_top_image, scoped_traversal, whole.
  rewrite scan_elements_app, scan_roots_traversal.
  destruct (scan_elements urljoin ∅ _); [reflexivity |].
  now rewrite scan_selectors_traversal.
Qed.

Lemma pick_top_image_first sp :
  pick_top_image urljoin sp
  = default "" (first_acceptable urljoin
                  (scoped_traversal sp ++ traversal (whole sp))).
Proof.
  rewrite pick_top_image_scan.
  pose proof (scan_elements_spec
                (scoped_traversal sp ++ traversal (whole sp)) ∅) as H.
  destruct (scan_elements urljoin ∅ _) as [u | seen].
  - now rewrite H by (intros u' Hu'; set_solver).
  - destruct H as [-> _]; [intros u' Hu'; set_solver | reflexivity].
Qed.

End WithUrljoin.
End ScanFacts.

(** ** The filter *)

Module FilterFacts.
Import PyStr PyStrFacts.

Lemma isspace_lower_char c : isspace (lower_char c) = isspace c.
Proof. destruct c as [[] [] [] [] [] [] [] []]; reflexivity. Qed.

Lemma nonempty_lower s : nonempty (lower s) = nonempty s.
Proof. now destruct s. Qed.

Lemma lower_lstrip s : lower (lstrip s) = lstrip (lower s).
Proof.
  induction s as [| c s IH]; [reflexivity |].
  cbn [lstrip lower]. rewrite isspace_lower_char.
  now destruct (isspace c).
Qed.

Lemma lower_rstrip s : lower (rstrip s) = rstrip (lower s).
Proof.
  induction s as [| c s IH]; [reflexivity |].
  cbn [rstrip lower]. rewrite isspace_lower_char, <- IH, nonempty_lower.
  now destruct (isspace c && negb (nonempty (rstrip s))).
Qed.

Lemma lower_strip s : lower (strip s) = strip (lower s).
Proof. unfold strip. now rewrite lower_rstrip, lower_lstrip. Qed.

Lemma startswith_space p c s :
  starts_nonspace p = true -> isspace c = true ->
  startswith p (String c s) = false.
Proof.
  destruct p as [| a p]; [discriminate |]. cbn. unfold nonspace.
  intros Ha Hc. destruct (Ascii.eqb_spec a c) as [-> | NE]; [| reflexivity].
  rewrite Hc in Ha. discriminate.
Qed.

Lemma contains_cons p c s :
  contains p (String c s) = startswith p (String c s) || contains p s.
Proof. reflexivity. Qed.

Lemma contains_nil p : p <> "" -> contains p "" = false.
Proof. destruct p; [congruence | reflexivity]. Qed.

Lemma contains_lstrip p s :
  starts_nonspace p = true -> contains p (lstrip s) = contains p s.
Proof.
  intros Hp. induction s as [| c s IH]; [reflexivity |].
  cbn [lstrip]. destruct (isspace c) eqn:E; [| reflexivity].
  rewrite IH, contains_cons.
  now rewrite (startswith_space p c s Hp E).
Qed.

Lemma startswith_rstrip p s :
  all nonspace p = true -> startswith p (rstrip s) = startswith p s.
Proof.
  revert s. induction p as [| a p IH]; intros s Hp.
  - now destruct (rstrip s), s.
  - cbn in Hp. apply andb_true_iff in Hp as [Ha Hp].
    destruct s as [| c s]; [reflexivity |].
    cbn [rstrip]. destruct (isspace c && negb (nonempty (rstrip s))) eqn:E.
    + apply andb_true_iff in E as [Hc _]. cbn.
      destruct (Ascii.eqb_spec a c) as [-> | NE]; [| reflexivity].
      unfold nonspace in Ha. rewrite Hc in Ha. discriminate.
    + cbn. now rewrite (IH s Hp).
Qed.

Lemma contains_rstrip p s :
  p <> "" -> all nonspace p = true ->
  contains p (rstrip s) = contains p s.
Proof.
  intros Hne Hp. induction s as [| c s IH]; [reflexivity |].
  assert (contains p (String c (rstrip s)) = contains p (String c s)) as Hc.
  { rewrite !contains_cons, IH. f_equal.
    pose proof (startswith_rstrip p (String c s) Hp) as H.
    cbn [rstrip] in H.
    destruct (isspace c && negb (nonempty (rstrip s))) eqn:E; [| exact H].
    apply andb_true_iff in E as [E1 E2].
    apply negb_true_iff, nonempty_false in E2. rewrite E2.
    destruct p as [| a p]; [congruence |].
    cbn in Hp. apply andb_true_iff in Hp as [Ha Hp'].
    cbn. destruct (Ascii.eqb_spec a c) as [-> | NE]; [| reflexivity].
    unfold nonspace in Ha. rewrite E1 in Ha. discriminate. }
  cbn [rstrip]. destruct (isspace c && negb (nonempty (rstrip s))) eqn:E;
    [| exact Hc].
  rewrite <- Hc.
  apply andb_true_iff in E as [E1 E2].
  apply negb_true_iff, nonempty_false in E2. rewrite E2.
  rewrite contains_cons, !(contains_nil p Hne), orb_false_r.
  symmetry. apply startswith_space; [| exact E1].
  destruct p as [| a p]; [congruence |].
  cbn in *. now apply andb_true_iff in Hp as [-> _].
Qed.

Lemma contains_strip p s :
  p <> "" -> all nonspace p = true ->
  contains p (strip s) = contains p s.
Proof.
  intros Hne Hp. unfold strip.
  rewrite (contains_rstrip p _ Hne Hp). apply contains_lstrip.
  destruct p as [| a p]; [congruence |].
  cbn in *. now apply andb_true_iff in Hp as [-> _].
Qed.

(** What passing the filter means for a URL. *)
Lemma acceptable_spec u :
  acceptable u = true ->
  u <> ""
  /\ (forall s, s ∈ bad_substrings -> contains s (lower u) = false)
  /\ startswith "data:image" (lower (strip u)) = false
  /\ endswith ".svg" (lower (strip u)) = false
  /\ contains ".svg?" (lower u) = false.
Proof.
  unfold acceptable, _looks_like_bad_image.
  intros [Hne Hok]%andb_true_iff. apply negb_true_iff in Hok.
  split; [now apply nonempty_true |].
  destruct (nonempty (lower (strip u))); cbn [negb] in Hok; [| discriminate].
  destruct (startswith "data:image" (lower (strip u))); [discriminate |].
  destruct (endswith ".svg" (lower (strip u))); [discriminate |].
  cbn [orb] in Hok.
  destruct (contains ".svg?" (lower (strip u))) eqn:Hq; [discriminate |].
  destruct (existsb _ bad_substrings) eqn:Hb; [discriminate |].
  rewrite lower_strip in Hq, Hb.
  rewrite contains_strip in Hq by (discriminate || reflexivity).
  repeat split; try assumption.
  intros s Hs.
  assert (contains s (strip (lower u)) = false) as Hs'.
  { rewrite <- not_true_iff_false. intros Hc.
    rewrite <- not_true_iff_false in Hb. apply Hb.
    apply existsb_exists. exists s. split; [| exact Hc].
    now apply list_elem_of_In. }
  rewrite <- Hs'. symmetry.
  unfold bad_substrings in Hs.
  repeat (apply elem_of_cons in Hs as [-> | Hs];
          [apply contains_strip; [discriminate | reflexivity] |]).
  inversion Hs.
Qed.

End FilterFacts.

(** ** The document tree *)

Module DomFacts.

Lemma filter_nil {A} (f : A -> bool) (l : list A) :
  (forall x, x ∈ l -> f x = false) -> List.filter f l = [].
Proof.
  induction l as [| x l IH]; intros H; [reflexivity |].
  cbn. rewrite (H x) by left. apply IH. intros y Hy. apply H. now right.
Qed.

Lemma elem_of_flat_map {A B} (f : A -> list B) (l : list A) (y : B) :
  y ∈ flat_map f l <-> exists x, x ∈ l /\ y ∈ f x.
Proof.
  rewrite list_elem_of_In, in_flat_map.
  split; intros (x & Hx & Hy); exists x;
    [rewrite !list_elem_of_In | rewrite <- !list_elem_of_In]; auto.
Qed.

(** The elements of a subtree of a subtree are elements of the subtree. *)
Lemma subtree_trans n : forall anc l x,
  l ∈ subtree anc n ->
  x ∈ subtree (ancestors l) (element l) ->
  x ∈ subtree anc n.
Proof.
  induction n as [cl s | nm a cs IH] using node_induction; intros anc l x Hl Hx.
  - inversion Hl.
  - cbn [subtree] in Hl |- *.
    apply elem_of_cons in Hl as [-> | Hl]; [exact Hx |].
    right. apply elem_of_flat_map in Hl as (c & Hc & Hl).
    apply elem_of_flat_map. exists c. split; [exact Hc |].
    rewrite Forall_forall in IH. exact (IH c Hc _ l x Hl Hx).
Qed.

Lemma descendants_subtree l x :
  x ∈ descendants l -> x ∈ subtree (ancestors l) (element l).
Proof.
  unfold descendants. destruct l as [anc [nm a cs | cl s]]; cbn.
  - now right.
  - intros H. inversion H.
Qed.

(** The elements below an element of the document are elements of the
    document, found with the same ancestors. *)
Lemma descendants_trans top root x :
  root ∈ descendants top -> x ∈ descendants root -> x ∈ descendants top.
Proof.
  intros Hroot Hx. apply descendants_subtree in Hx.
  unfold descendants in *. destruct (element top) as [nm a cs | cl s].
  - apply elem_of_flat_map in Hroot as (c & Hc & Hroot).
    apply elem_of_flat_map. exists c. split; [exact Hc |].
    eapply subtree_trans; eassumption.
  - inversion Hroot.
Qed.

End DomFacts.

(** ** Image selector: what is returned *)

(** X1.  Whatever the selector returns, when it is not the empty string,
    passed the filter: its lower-cased text has none of the denylisted
    substrings,
    it is not an inline image, it does not end in [.svg] and it does not
    contain [.svg?]. *)
Lemma pick_top_image_passes_filter
    (urljoin : string -> string -> string) (sp : node) (u : string) :
  pick_top_image urljoin sp = u -> u <> "" ->
  (forall s, s ∈ bad_substrings -> PyStr.contains s (PyStr.lower u) = false)
  /\ UrlSpec.is_data_image u = false
  /\ PyStr.endswith ".svg" (PyStr.lower (PyStr.strip u)) = false
  /\ PyStr.contains ".svg?" (PyStr.lower u) = false.
Proof.
  intros Hu Hne. rewrite ScanFacts.pick_top_image_first in Hu.
  destruct (first_acceptable urljoin _) as [v |] eqn:E; cbn in Hu; subst u.
  - apply ScanFacts.first_acceptable_Some in E as [Ha _].
    apply FilterFacts.acceptable_spec in Ha as (_ & H1 & H2 & H3 & H4).
    repeat split; assumption.
  - congruence.
Qed.

(** C2.  The filter misses a vector image whose URL carries a fragment: for
    the document [<img src="/a.svg#v">] the selector returns the URL of the
    [.svg] file.  (The URL neither ends in [.svg] nor contains [.svg?], the
    two forms the filter tests.) *)
Theorem pick_top_image_svg_fragment :
  pick_top_image Samples.resolve Samples.svg_fragment
  = "https://www.churchofjesuschrist.org/a.svg#v"
  /\ UrlSpec.has_svg_extension
       (pick_top_image Samples.resolve Samples.svg_fragment) = true
  /\ _looks_like_bad_image "https://www.churchofjesuschrist.org/a.svg#v" = false
  /\ _looks_like_bad_image "https://www.churchofjesuschrist.org/a.svg?v" = true
  /\ _looks_like_bad_image "https://www.churchofjesuschrist.org/a.svg" = true.
Proof. repeat split; vm_compute; reflexivity. Qed.

(** C6.  The selector searches below the [main] and [article] elements when
    there are any and below the document otherwise; it returns the first
    URL of that ordered traversal that is acceptable; when there is none it
    goes through the traversal of the whole document once and returns the
    first acceptable URL there; when there is none either, and so for a
    document without [picture] and [img] elements, it returns the empty
    string. *)
Theorem pick_top_image_first_acceptable
    (urljoin : string -> string -> string) (sp : node) :
  search_roots sp
  = (if bool_decide (select SelMainArticle (whole sp) = [])
     then [whole sp] else select SelMainArticle (whole sp))
  /\ pick_top_image urljoin sp
     = match first_acceptable urljoin (scoped_traversal sp) with
       | Some u => u
       | None =>
           match first_acceptable urljoin (traversal (whole sp)) with
           | Some u => u
           | None => ""
           end
       end
  /\ ((forall el, el ∈ descendants (whole sp) ->
         name (element el) <> "picture" /\ name (element el) <> "img") ->
      pick_top_image urljoin sp = "").
Proof.
  split; [| split].
  - unfold search_roots, whole.
    destruct (select SelMainArticle (Loc [] sp)) eqn:E; reflexivity.
  - rewrite ScanFacts.pick_top_image_first, ScanFacts.first_acceptable_app.
    now destruct (first_acceptable urljoin (scoped_traversal sp)).
  - intros Hnone.
    assert (forall root,
               (forall el, el ∈ descendants root ->
                           el ∈ descendants (whole sp)) ->
               traversal root = []) as Hempty.
    { intros root Hsub.
      assert (forall sel, In sel selectors -> select sel root = []) as Hsel.
      { intros sel Hsel. unfold select.
        apply DomFacts.filter_nil. intros el Hel.
        destruct (Hnone el (Hsub el Hel)) as [Hp Hi].
        apply String.eqb_neq in Hp, Hi.
        unfold matches. cbn in Hsel.
        destruct Hsel as [<- | [<- | [<- | []]]]; rewrite ?Hp, ?Hi;
          reflexivity. }
      unfold traversal. rewrite !Hsel by (cbn; auto). reflexivity. }
    assert (traversal (whole sp) = []) as Hw by (apply Hempty; auto).
    assert (forall root, root ∈ search_roots sp -> traversal root = []) as Hr.
    { intros root Hroot. unfold search_roots in Hroot. fold (whole sp) in Hroot.
      destruct (select SelMainArticle (whole sp)) as [| r rs] eqn:E.
      - apply list_elem_of_singleton in Hroot. now subst root.
      - (* a main or article element lies in the document: so do the
           elements below it *)
        apply Hempty. intros el Hel.
        rewrite <- E in Hroot. unfold select in Hroot.
        apply list_elem_of_In, filter_In in Hroot as [Hroot _].
        apply list_elem_of_In in Hroot.
        eapply DomFacts.descendants_trans; eassumption. }
    rewrite ScanFacts.pick_top_image_first.
    replace (scoped_traversal sp) with (@nil located).
    + now rewrite Hw.
    + unfold scoped_traversal. symmetry.
      induction (search_roots sp) as [| r rs IH]; [reflexivity |].
      cbn. rewrite Hr by left. apply IH. intros root H. apply Hr. now right.
Qed.

(** ** Extraction from one element *)

Module ExtractFacts.
Import PyStr PyStrFacts SrcsetSpec ExtractSpec.

Lemma match_candidate_url part c :
  match_candidate part = Some c -> snd c <> "".
Proof.
  destruct c as [n u]. intros H.
  apply PatternFacts.match_candidate_spec in H
    as (g2 & (ws & rest & _ & Hne & _) & _).
  exact Hne.
Qed.

Lemma collect_candidates_url parts c :
  c ∈ collect_candidates parts -> snd c <> "".
Proof.
  induction parts as [| p parts IH]; cbn; [intros H; inversion H |].
  destruct (match_candidate (strip p)) as [c' |] eqn:E; [| exact IH].
  intros [-> | H]%elem_of_cons; [| now apply IH].
  now apply match_candidate_url in E.
Qed.

Lemma largest_nonempty srcset :
  candidates_of srcset <> [] ->
  nonempty (_largest_from_srcset srcset) = true.
Proof.
  intros Hne. rewrite SrcsetFacts.largest_from_srcset_widest.
  destruct (SrcsetFacts.widest_nonnil _ Hne) as [m Hm]. rewrite Hm.
  apply SrcsetFacts.widest_max in Hm as [Hin _].
  apply collect_candidates_url in Hin. now apply nonempty_true.
Qed.

Lemma largest_empty srcset :
  candidates_of srcset = [] -> _largest_from_srcset srcset = "".
Proof.
  intros E. now rewrite SrcsetFacts.largest_from_srcset_widest, E.
Qed.

Lemma lstrip_id s : starts_nonspace s = true -> lstrip s = s.
Proof.
  destruct s as [| c s]; [discriminate |]. cbn. unfold nonspace.
  now destruct (isspace c).
Qed.

Lemma lstrip_app_start s t :
  starts_nonspace s = true -> lstrip (s +:+ t) = s +:+ t.
Proof.
  destruct s as [| c s]; [discriminate |]. rewrite app_cons. cbn.
  unfold nonspace. now destruct (isspace c).
Qed.

Lemma rstrip_id s : all nonspace s = true -> rstrip s = s.
Proof.
  induction s as [| c s IH]; [reflexivity |]. cbn. unfold nonspace at 1.
  intros [Hc Hs]%andb_true_iff. rewrite (IH Hs).
  apply negb_true_iff in Hc. now rewrite Hc.
Qed.

Lemma strip_id s : all nonspace s = true -> strip s = s.
Proof.
  intros H. unfold strip. destruct s as [| c s]; [reflexivity |].
  rewrite lstrip_id; [now apply rstrip_id |].
  cbn in *. now apply andb_true_iff in H as [-> _].
Qed.

Lemma no_char_contains (p : ascii -> bool) c s :
  p c = false -> all p s = true -> contains (String c "") s = false.
Proof.
  intros Hc. induction s as [| a s IH]; [reflexivity |].
  cbn. intros [Ha Hs]%andb_true_iff. rewrite (IH Hs), orb_false_r.
  destruct (Ascii.eqb_spec c a) as [-> | NE]; [congruence | reflexivity].
Qed.

Lemma url_char_nonspace s : all url_char s = true -> all nonspace s = true.
Proof.
  apply PatternFacts.all_impl. unfold url_char.
  now intros c [-> _]%andb_true_iff.
Qed.

(** The first URL of a candidate list, verbatim. *)
Lemma first_url_head u rest :
  all url_char u = true ->
  first_url u = u /\ first_url (u +:+ String "," rest) = u.
Proof.
  intros Hu.
  pose proof (url_char_nonspace u Hu) as Hns.
  assert (contains "," u = false) as Hcomma.
  { apply (no_char_contains url_char); [reflexivity | exact Hu]. }
  assert (contains " " u = false) as Hspace.
  { apply (no_char_contains url_char); [reflexivity | exact Hu]. }
  unfold first_url.
  rewrite split_app, (split_no_sep "," u Hcomma). simpl.
  rewrite (strip_id u Hns), (split_no_sep " " u Hspace). simpl.
  now rewrite (strip_id u Hns).
Qed.

Lemma head_split_app sep a b :
  contains (String sep "") a = false ->
  default "" (head (split sep (a +:+ b)))
  = a +:+ default "" (head (split sep b)).
Proof.
  induction a as [| c a IH]; [reflexivity |].
  rewrite !app_cons. cbn [split contains startswith].
  rewrite (Ascii.eqb_sym sep c).
  destruct (Ascii.eqb c sep); cbn [andb orb]; [discriminate |].
  intros H. rewrite <- (IH H).
  pose proof (split_nonnil sep (a +:+ b)) as Hn.
  destruct (split sep (a +:+ b)); [congruence | reflexivity].
Qed.

Lemma rstrip_app_nonspace u t :
  all nonspace u = true -> rstrip (u +:+ t) = u +:+ rstrip t.
Proof.
  induction u as [| c u IH]; [reflexivity |].
  cbn [all]. intros [Hc Hu]%andb_true_iff.
  rewrite !app_cons. cbn [rstrip]. rewrite (IH Hu).
  unfold nonspace in Hc. apply negb_true_iff in Hc. now rewrite Hc.
Qed.

(** The first URL of a candidate list whose first entry carries a
    descriptor after a space. *)
Lemma first_url_space u rest :
  all url_char u = true -> u <> "" ->
  first_url (u +:+ String " " rest) = u.
Proof.
  intros Hu Hne.
  pose proof (url_char_nonspace u Hu) as Hns.
  assert (contains "," u = false) as Hcomma.
  { apply (no_char_contains url_char); [reflexivity | exact Hu]. }
  assert (contains " " u = false) as Hspace.
  { apply (no_char_contains url_char); [reflexivity | exact Hu]. }
  unfold first_url.
  rewrite (head_split_app "," u _ Hcomma).
  change (String " " rest) with (" " +:+ rest).
  rewrite (head_split_app "," " " rest eq_refl).
  set (f := default "" (head (split "," rest))).
  assert (strip (u +:+ " " +:+ f) = u +:+ rstrip (" " +:+ f)) as ->.
  { unfold strip. rewrite lstrip_app_start.
    - now apply rstrip_app_nonspace.
    - destruct u as [| c u]; [congruence |].
      cbn in *. now apply andb_true_iff in Hns as [-> _]. }
  assert (default "" (head (split " " (u +:+ rstrip (" " +:+ f)))) = u) as ->.
  { change (" " +:+ f) with (String " " f). cbn [rstrip].
    destruct (isspace " " && negb (nonempty (rstrip f))).
    - now rewrite app_nil_r, (split_no_sep " " u Hspace).
    - now rewrite split_app, (split_no_sep " " u Hspace). }
  now apply strip_id.
Qed.

Section WithUrljoin.

Variable urljoin : string -> string -> string.

Lemma pick_from_sources_skip pre rest :
  (forall s, s ∈ pre -> unusable s) ->
  pick_from_sources urljoin (pre ++ rest)
  = pick_from_sources urljoin rest.
Proof.
  induction pre as [| s pre IH]; intros H; [reflexivity |].
  cbn [app pick_from_sources].
  rewrite IH by (intros; apply H; now right).
  destruct (H s ltac:(left)) as [-> | [Hc Hf]]; [reflexivity |].
  destruct (nonempty (strip (get s "srcset"))); [| reflexivity].
  now rewrite (largest_empty _ Hc), Hf.
Qed.

Lemma first_attr_spec tag keys :
  match first_attr tag keys with
  | Some src =>
      src <> ""
      /\ exists i k,
           keys !! i = Some k /\ get tag k = src
           /\ forall j k', (j < i)%nat -> keys !! j = Some k' ->
                           get tag k' = ""
  | None => forall k, k ∈ keys -> get tag k = ""
  end.
Proof.
  induction keys as [| k keys IH]; cbn [first_attr].
  - intros k H. inversion H.
  - destruct (nonempty (get tag k)) eqn:E.
    + split; [now apply nonempty_true |].
      exists 0%nat, k. repeat split. intros j k' Hj. lia.
    + apply nonempty_false in E.
      destruct (first_attr tag keys) as [src |].
      * destruct IH as (Hne & i & k0 & Hi & Hk & Hbefore).
        split; [exact Hne |]. exists (S i), k0. repeat split; try assumption.
        intros [| j] k' Hj Hk'; cbn in Hk'.
        -- now injection Hk' as <-.
        -- apply (Hbefore j); [lia | exact Hk'].
      * intros k' [-> | Hk']%elem_of_cons; [exact E | now apply IH].
Qed.

Lemma get_without_srcset tag k :
  k <> "srcset" -> k <> "data-srcset" ->
  get (without_srcset tag) k = get tag k.
Proof.
  intros H1 H2. destruct tag as [nm a cs | cl s]; [| reflexivity].
  cbn. now rewrite !lookup_delete_ne by congruence.
Qed.

Lemma srcset_of_without_srcset tag : srcset_of (without_srcset tag) = "".
Proof.
  destruct tag as [nm a cs | cl s]; [| reflexivity].
  unfold srcset_of. cbn.
  rewrite lookup_delete_eq.
  rewrite lookup_delete_ne by discriminate.
  now rewrite lookup_delete_eq.
Qed.

Lemma first_attr_without_srcset tag :
  first_attr (without_srcset tag) src_attrs = first_attr tag src_attrs.
Proof.
  unfold src_attrs. cbn [first_attr].
  now rewrite !get_without_srcset by discriminate.
Qed.

End WithUrljoin.

End ExtractFacts.

(** C5.  For a [picture] the selector uses the first [source], in document
    order, whose candidate list is not empty: the sources before it that
    have no list (or an unusable one) are passed over; from the list it
    takes the widest candidate when the list has width descriptors and, when
    it has none, the first URL of the list as it stands, either one resolved
    to an absolute URL.  When no [source] yields a URL the extraction is the
    one of a plain image on the first [img] inside the [picture].  From
    ["a.jpg, b.jpg"] the first URL is [a.jpg], and it is what the selector
    takes. *)
Theorem pick_from_picture_first_usable_source
    (urljoin : string -> string -> string) (pic : node) :
  (forall pre src post,
      find_all "source" pic = pre ++ src :: post ->
      (forall s, s ∈ pre -> ExtractSpec.unusable s) ->
      PyStr.strip (get src "srcset") <> "" ->
      (candidates_of (PyStr.strip (get src "srcset")) <> [] ->
       _pick_from_picture_tag urljoin (Some pic)
       = absolute_url urljoin
           (_largest_from_srcset (PyStr.strip (get src "srcset"))))
      /\ (candidates_of (PyStr.strip (get src "srcset")) = [] ->
          first_url (PyStr.strip (get src "srcset")) <> "" ->
          _pick_from_picture_tag urljoin (Some pic)
          = absolute_url urljoin
              (first_url (PyStr.strip (get src "srcset")))))
  /\ ((forall s, s ∈ find_all "source" pic -> ExtractSpec.unusable s) ->
      _pick_from_picture_tag urljoin (Some pic)
      = pick_best_image_from_tag urljoin (find "img" pic))
  /\ (forall u rest,
         PyStr.all ExtractSpec.url_char u = true -> u <> "" ->
         first_url u = u
         /\ first_url (u +:+ "," +:+ rest) = u
         /\ first_url (u +:+ " " +:+ rest) = u)
  /\ first_url "a.jpg, b.jpg" = "a.jpg"
  /\ _pick_from_picture_tag urljoin (Some Samples.plain_list_picture)
     = absolute_url urljoin "a.jpg".
Proof.
  split; [| split; [| split; [| split]]].
  - intros pre src post Hsources Hpre Hss.
    unfold _pick_from_picture_tag.
    rewrite Hsources, (ExtractFacts.pick_from_sources_skip urljoin pre _ Hpre).
    cbn [pick_from_sources].
    apply PyStrFacts.nonempty_true in Hss. rewrite Hss. split.
    + intros Hc. now rewrite (ExtractFacts.largest_nonempty _ Hc).
    + intros Hc Hf. rewrite (ExtractFacts.largest_empty _ Hc).
      apply PyStrFacts.nonempty_true in Hf. now rewrite Hf.
  - intros Hall. unfold _pick_from_picture_tag.
    rewrite <- (app_nil_r (find_all "source" pic)).
    now rewrite (ExtractFacts.pick_from_sources_skip urljoin _ [] Hall).
  - intros u rest Hu Hne.
    destruct (ExtractFacts.first_url_head u rest Hu) as [H1 H2].
    split; [exact H1 |]. split; [exact H2 |].
    apply (ExtractFacts.first_url_space u rest Hu Hne).
  - reflexivity.
  - vm_compute. reflexivity.
Qed.

Lemma pick_from_picture_first_usable_source_witness :
  _pick_from_picture_tag Samples.resolve (Some Samples.plain_list_picture)
  = absolute_url Samples.resolve
      (first_url (PyStr.strip (get (Samples.source "a.jpg, b.jpg") "srcset"))).
Proof.
  apply (proj1 (pick_from_picture_first_usable_source
                  Samples.resolve Samples.plain_list_picture)
           [Samples.source " "] (Samples.source "a.jpg, b.jpg") []).
  - vm_compute. reflexivity.
  - intros s Hs. apply list_elem_of_singleton in Hs. subst s.
    left. vm_compute. reflexivity.
  - vm_compute. discriminate.
  - vm_compute. reflexivity.
  - vm_compute. discriminate.
Defined.

(** C10.  For a plain image whose candidate list is not empty but has no
    parseable width descriptor the list is ignored: the URL is the one the
    same tag without its candidate-list attributes yields, that is, the
    first non-empty value among [src], [data-src], [data-lazy-src] and
    [data-original], resolved, or the empty string when there is none. *)
Theorem plain_image_ignores_descriptorless_list
    (urljoin : string -> string -> string) (tag : node) :
  srcset_of tag <> "" ->
  candidates_of (srcset_of tag) = [] ->
  pick_best_image_from_tag urljoin (Some tag)
  = match first_attr tag src_attrs with
    | Some src => absolute_url urljoin src
    | None => ""
    end
  /\ pick_best_image_from_tag urljoin (Some tag)
     = pick_best_image_from_tag urljoin (Some (ExtractSpec.without_srcset tag))
  /\ match first_attr tag src_attrs with
     | Some src =>
         src <> ""
         /\ exists i k,
              src_attrs !! i = Some k /\ get tag k = src
              /\ forall j k', (j < i)%nat -> src_attrs !! j = Some k' ->
                              get tag k' = ""
     | None => forall k, k ∈ src_attrs -> get tag k = ""
     end.
Proof.
  intros _ Hc. split; [| split].
  - unfold pick_best_image_from_tag.
    now rewrite (ExtractFacts.largest_empty _ Hc).
  - unfold pick_best_image_from_tag.
    rewrite (ExtractFacts.largest_empty _ Hc).
    rewrite ExtractFacts.srcset_of_without_srcset.
    now rewrite ExtractFacts.first_attr_without_srcset.
  - apply ExtractFacts.first_attr_spec.
Qed.

Lemma plain_image_ignores_descriptorless_list_witness :
  pick_best_image_from_tag Samples.resolve (Some Samples.density_img)
  = match first_attr Samples.density_img src_attrs with
    | Some src => absolute_url Samples.resolve src
    | None => ""
    end.
Proof.
  apply (plain_image_ignores_descriptorless_list
           Samples.resolve Samples.density_img).
  - vm_compute. discriminate.
  - vm_compute. reflexivity.
Defined.

(** C1, as stated, fails: a [picture] that lies in the scope, later in the
    document than an acceptable plain image, is not chosen when the two lie
    below different search roots.  In
    [<main><img src="/a.jpg"></main>
     <article><picture><source srcset="/b.jpg 100w"></picture></article>]
    the selector returns the URL of the plain image. *)
Lemma picture_pass_not_swept_over_scope :
  ~ (forall sp pic,
        pic ∈ flat_map (select SelPicture) (search_roots sp) ->
        acceptable (candidate_url Samples.resolve pic) = true ->
        exists pic',
          pic' ∈ flat_map (select SelPicture) (search_roots sp)
          /\ pick_top_image Samples.resolve sp
             = candidate_url Samples.resolve pic').
Proof.
  intros H.
  destruct (H Samples.two_roots
              (Loc ["article"; document_name]
                 (Samples.elem "picture" [] [Samples.source "/b.jpg 100w"])))
    as (pic' & Hin & Heq).
  - vm_compute. left.
  - vm_compute. reflexivity.
  - vm_compute in Hin. apply list_elem_of_singleton in Hin. subst pic'.
    vm_compute in Heq. discriminate Heq.
Qed.

(** C1, amended.  The search roots are taken one after the other, in
    document order, and below each root the element kinds are swept in a
    fixed order of passes: every [picture], then every [img] below a
    [figure], then every [img], each pass in document order.  So, the roots
    before it having yielded nothing, the first acceptable URL of a
    [picture] below a root is returned whatever plain images the root holds
    and wherever they stand; the images wrapped in a [figure] come next and
    the remaining ones last. *)
Theorem picture_pass_first_within_root
    (urljoin : string -> string -> string) (sp : node) pre root post :
  search_roots sp = pre ++ root :: post ->
  first_acceptable urljoin (flat_map traversal pre) = None ->
  (forall u,
      first_acceptable urljoin (select SelPicture root) = Some u ->
      pick_top_image urljoin sp = u)
  /\ (forall u,
         first_acceptable urljoin (select SelPicture root) = None ->
         first_acceptable urljoin (select SelFigureImg root) = Some u ->
         pick_top_image urljoin sp = u)
  /\ (forall u,
         first_acceptable urljoin (select SelPicture root) = None ->
         first_acceptable urljoin (select SelFigureImg root) = None ->
         first_acceptable urljoin (select SelImg root) = Some u ->
         pick_top_image urljoin sp = u).
Proof.
  intros Hroots Hpre.
  assert (forall u,
             first_acceptable urljoin (traversal root) = Some u ->
             pick_top_image urljoin sp = u) as Hroot.
  { intros u Hu. rewrite ScanFacts.pick_top_image_first.
    unfold scoped_traversal. rewrite Hroots, flat_map_app. cbn [flat_map].
    rewrite <- !app_assoc.
    rewrite ScanFacts.first_acceptable_app, Hpre.
    now rewrite ScanFacts.first_acceptable_app, Hu. }
  unfold traversal in Hroot. repeat split; intros u.
  - intros H1. apply Hroot.
    now rewrite ScanFacts.first_acceptable_app, H1.
  - intros H1 H2. apply Hroot.
    now rewrite !ScanFacts.first_acceptable_app, H1, H2.
  - intros H1 H2 H3. apply Hroot.
    now rewrite !ScanFacts.first_acceptable_app, H1, H2, H3.
Qed.

Lemma picture_pass_first_within_root_witness :
  pick_top_image Samples.resolve Samples.one_root
  = "https://www.churchofjesuschrist.org/b.jpg".
Proof.
  apply (proj1 (picture_pass_first_within_root
                  Samples.resolve Samples.one_root
                  [] (Loc [document_name] Samples.one_root_main) []
                  eq_refl eq_refl)).
  vm_compute. reflexivity.
Defined.

(** ** The run *)

Example run_not_modified :
  main Samples.resolve Samples.parse Samples.dumps
    (Samples.answering 304 "Not Modified" "") Samples.empty_world
  = (0,
     {| files :=
          {[ OUT_JSON :=
               "{ generated_at_utc: 2026-11-04T06:00:00+00:00"
               +:+ ", week_number: 45"
               +:+ ", source_url: " +:+ Samples.week45_url
               +:+ ", image_url: , small_heading: , big_heading:  }" ]};
        directories := {[ "data" ]};
        stdout := ["Wrote data/come_follow_me_this_week.json for week 45: "];
        stderr := [] |}).
Proof. vm_compute. reflexivity. Qed.

Example run_not_found :
  main Samples.resolve Samples.parse Samples.dumps
    (Samples.answering 404 "Not Found" "") Samples.empty_world
  = (1,
     {| files := ∅; directories := ∅; stdout := [];
        stderr :=
          ["ERROR scraping week 45: 404 Client Error: Not Found for url: "
           +:+ Samples.week45_url;
           "Traceback (most recent call last): "
           +:+ "404 Client Error: Not Found for url: "
           +:+ Samples.week45_url] |}).
Proof. vm_compute. reflexivity. Qed.

(** A page that is an address and nothing else: the parser warns, the run
    goes on and the warning is on the error stream of a run that ends with
    status 0. *)
Example run_address_page :
  main Samples.resolve Samples.parse Samples.dumps
    (Samples.answering 200 "OK" Samples.address_page) Samples.empty_world
  = (0,
     {| files :=
          {[ OUT_JSON :=
               "{ generated_at_utc: 2026-11-04T06:00:00+00:00"
               +:+ ", week_number: 45"
               +:+ ", source_url: " +:+ Samples.week45_url
               +:+ ", image_url: , small_heading: , big_heading:  }" ]};
        directories := {[ "data" ]};
        stdout := ["Wrote data/come_follow_me_this_week.json for week 45: "];
        stderr := [Samples.locator_warning] |}).
Proof. vm_compute. reflexivity. Qed.

Module RunFacts.
Import PyStr PyStrFacts.

Lemma raise_for_status_None r :
  raise_for_status r = None
  <-> ~ (400 <= status_code r < 600).
Proof.
  unfold raise_for_status.
  destruct (Z.leb_spec 400 (status_code r)) as [L4 | L4],
           (Z.ltb_spec (status_code r) 500) as [U5 | U5],
           (Z.leb_spec 500 (status_code r)) as [L5 | L5],
           (Z.ltb_spec (status_code r) 600) as [U6 | U6];
    cbn; split; intros Hx; try reflexivity; try discriminate; try lia;
    exfalso; apply Hx; lia.
Qed.

Lemma head_filter_Some {A} (f : A -> bool) l x :
  head (List.filter f l) = Some x
  <-> exists l1 l2,
        l = l1 ++ x :: l2 /\ f x = true /\ forall y, y ∈ l1 -> f y = false.
Proof.
  induction l as [| a l IH]; cbn.
  - split; [discriminate |]. intros (l1 & l2 & E & _).
    destruct l1; discriminate.
  - destruct (f a) eqn:Ea; cbn.
    + split.
      * intros [= <-]. exists [], l. repeat split; [exact Ea |].
        intros y Hy. inversion Hy.
      * intros ([| b l1] & l2 & E & Hx & Hl1).
        -- now injection E as -> _.
        -- injection E as <- _. specialize (Hl1 a ltac:(left)). congruence.
    + rewrite IH. split.
      * intros (l1 & l2 & -> & Hx & Hl1). exists (a :: l1), l2.
        repeat split; [exact Hx |].
        intros y [-> | Hy]%elem_of_cons; [exact Ea | now apply Hl1].
      * intros ([| b l1] & l2 & E & Hx & Hl1).
        -- injection E as -> _. congruence.
        -- injection E as <- ->. exists l1, l2. repeat split; [exact Hx |].
           intros y Hy. apply Hl1. now right.
Qed.

Lemma head_filter_None {A} (f : A -> bool) l :
  head (List.filter f l) = None <-> forall y, y ∈ l -> f y = false.
Proof.
  induction l as [| a l IH]; cbn.
  - split; [| reflexivity]. intros _ y Hy. inversion Hy.
  - destruct (f a) eqn:Ea; cbn.
    + split; [discriminate |]. intros H.
      specialize (H a ltac:(left)). congruence.
    + rewrite IH. split.
      * intros H y [-> | Hy]%elem_of_cons; [exact Ea | now apply H].
      * intros H y Hy. apply H. now right.
Qed.

Lemma rstrip_idem s : rstrip (rstrip s) = rstrip s.
Proof.
  induction s as [| c s IH]; [reflexivity |].
  cbn [rstrip]. destruct (isspace c && negb (nonempty (rstrip s))) eqn:E;
    [reflexivity |].
  cbn [rstrip]. now rewrite IH, E.
Qed.

Lemma rstrip_starts s :
  starts_nonspace s = true -> starts_nonspace (rstrip s) = true.
Proof.
  destruct s as [| c s]; [discriminate |]. cbn. unfold nonspace.
  intros Hc. apply negb_true_iff in Hc. rewrite Hc. cbn.
  unfold nonspace. now rewrite Hc.
Qed.

Lemma lstrip_starts s :
  lstrip s = "" \/ starts_nonspace (lstrip s) = true.
Proof.
  induction s as [| c s IH]; [now left |].
  cbn [lstrip]. destruct (isspace c) eqn:E; [exact IH |].
  right. cbn. unfold nonspace. now rewrite E.
Qed.

(** A stripped text has no blank at either end: stripping it again
    changes nothing. *)
Lemma strip_idem s : strip (strip s) = strip s.
Proof.
  unfold strip.
  destruct (lstrip_starts s) as [-> | H]; [reflexivity |].
  rewrite (ExtractFacts.lstrip_id (rstrip (lstrip s)))
    by now apply rstrip_starts.
  apply rstrip_idem.
Qed.

(** The two ways a scrape ends: it raises before the page is parsed and
    leaves the world as it is, or it returns its record and the warnings
    of the parser are on the error stream. *)
Lemma scrape_week_cases urljoin parse_html env week w :
  (exists e, scrape_week urljoin parse_html env week w = (inl e, w))
  \/ (exists p r,
         http_get env (BASE +:+ MANUAL_PATH_format week) = inr r
         /\ raise_for_status r = None
         /\ scrape_week urljoin parse_html env week w
            = (inr p, Os.show_warnings (fst (parse_html (text r))) w)).
Proof.
  unfold scrape_week.
  destruct (http_get env _) as [msg | r]; [left; eauto |].
  destruct (raise_for_status r) as [msg |] eqn:E; [left; eauto |].
  right. eauto.
Qed.

Lemma scrape_week_files urljoin parse_html env week w :
  files (snd (scrape_week urljoin parse_html env week w)) = files w.
Proof.
  destruct (scrape_week_cases urljoin parse_html env week w)
    as [(e & ->) | (p & r & _ & _ & ->)]; reflexivity.
Qed.

(** The record of a scrape does not depend on the world. *)
Lemma scrape_week_result urljoin parse_html env week w w' :
  fst (scrape_week urljoin parse_html env week w)
  = fst (scrape_week urljoin parse_html env week w').
Proof.
  unfold scrape_week.
  destruct (http_get env _) as [msg | r]; [reflexivity |].
  destruct (raise_for_status r); reflexivity.
Qed.

End RunFacts.

(** C8, as stated, fails: a status outside the 2xx class does not always end
    the run.  [raise_for_status] raises for the 4xx and 5xx classes only; on
    a 304 answer the run goes on, exits with status 0 and writes the output
    file. *)
Lemma non_2xx_status_may_write :
  ~ (forall env w r,
        http_get env (BASE +:+ MANUAL_PATH_format (iso_week_number (today env)))
        = inr r ->
        ~ (200 <= status_code r < 300) ->
        fst (main Samples.resolve Samples.parse Samples.dumps env w) <> 0
        /\ files (snd (main Samples.resolve Samples.parse Samples.dumps env w))
           = files w).
Proof.
  intros H.
  destruct (H (Samples.answering 304 "Not Modified" "") Samples.empty_world
              {| status_code := 304; reason := "Not Modified";
                 url_of := BASE +:+ MANUAL_PATH_format 45; text := "" |})
    as [Hexit _].
  - reflexivity.
  - cbn. lia.
  - apply Hexit. vm_compute. reflexivity.
Qed.

(** C8, amended.  If the HTTP GET returns a 4xx or 5xx status the run
    terminates with a non-zero status, after a line that names the week and
    the error has been printed to the error stream, and nothing is written:
    no file and no directory is created or modified, and nothing is printed
    to the standard output.  The same holds when the GET itself fails.  The
    write happens only after a successful scrape: a run that changes a file
    had a scrape that returned its record, and the file changed is the
    output file, holding that record. *)
Theorem http_error_aborts_before_write
    (urljoin : string -> string -> string)
    (parse_html : string -> list string * node)
    (json_dumps : payload -> string) (env : environment) (w : world) :
  let week := iso_week_number (today env) in
  let url := BASE +:+ MANUAL_PATH_format week in
  let run := main urljoin parse_html json_dumps env w in
  (forall r,
      http_get env url = inr r -> 400 <= status_code r < 600 ->
      exists msg,
        raise_for_status r = Some msg
        /\ fst run = 1
        /\ files (snd run) = files w
        /\ directories (snd run) = directories w
        /\ stdout (snd run) = stdout w
        /\ stderr (snd run)
           = stderr w
               ++ ["ERROR scraping week " +:+ PyStr.str_of_Z week
                 +:+ ": " +:+ msg;
               "Traceback (most recent call last): " +:+ msg])
  /\ (forall msg,
         http_get env url = inl msg ->
         fst run = 1 /\ files (snd run) = files w
         /\ directories (snd run) = directories w)
  /\ (files (snd run) <> files w ->
      exists p,
        fst (scrape_week urljoin parse_html env week w) = inr p
        /\ files (snd run) = <[ OUT_JSON := json_dumps p ]> (files w)).
Proof.
  cbv zeta. split; [| split].
  - intros r Hget Hstatus.
    assert (exists msg, raise_for_status r = Some msg) as [msg Hmsg].
    { destruct (raise_for_status r) as [msg |] eqn:E; [eauto |].
      apply RunFacts.raise_for_status_None in E. lia. }
    exists msg. split; [exact Hmsg |].
    unfold main, scrape_week. rewrite Hget, Hmsg. cbn.
    rewrite <- app_assoc. repeat split.
  - intros msg Hget. unfold main, scrape_week. rewrite Hget. cbn.
    repeat split.
  - unfold main. cbv zeta.
    pose proof (RunFacts.scrape_week_files urljoin parse_html env
                  (iso_week_number (today env)) w) as Hfiles.
    destruct (scrape_week urljoin parse_html env _ w) as [[e | p] w1];
      cbn [fst snd] in *; [cbn; congruence |].
    intros Hchanged. exists p. split; [reflexivity |].
    unfold Os.makedirs in *.
    destruct (negb (PyStr.nonempty (Os.dirname OUT_JSON)));
      [cbn in *; congruence |].
    destruct (bool_decide _); [cbn in *; congruence |].
    unfold Os.write_file in *. cbn [directories files] in *.
    destruct (bool_decide _); [cbn in *; congruence |].
    cbn. now rewrite Hfiles.
Qed.

Lemma http_error_aborts_before_write_witness :
  exists msg,
    raise_for_status
      {| status_code := 503; reason := "Service Unavailable";
         url_of := BASE +:+ MANUAL_PATH_format 45; text := "" |} = Some msg
    /\ fst (main Samples.resolve Samples.parse Samples.dumps
              (Samples.answering 503 "Service Unavailable" "")
              Samples.empty_world) = 1
    /\ files (snd (main Samples.resolve Samples.parse Samples.dumps
                     (Samples.answering 503 "Service Unavailable" "")
                     Samples.empty_world)) = files Samples.empty_world
    /\ directories (snd (main Samples.resolve Samples.parse Samples.dumps
                           (Samples.answering 503 "Service Unavailable" "")
                           Samples.empty_world))
       = directories Samples.empty_world
    /\ stdout (snd (main Samples.resolve Samples.parse Samples.dumps
                      (Samples.answering 503 "Service Unavailable" "")
                      Samples.empty_world)) = stdout Samples.empty_world
    /\ stderr (snd (main Samples.resolve Samples.parse Samples.dumps
                      (Samples.answering 503 "Service Unavailable" "")
                      Samples.empty_world))
       = stderr Samples.empty_world
           ++ ["ERROR scraping week " +:+ PyStr.str_of_Z 45 +:+ ": " +:+ msg;
               "Traceback (most recent call last): " +:+ msg].
Proof.
  apply (proj1 (http_error_aborts_before_write
                  Samples.resolve Samples.parse Samples.dumps
                  (Samples.answering 503 "Service Unavailable" "")
                  Samples.empty_world)).
  - reflexivity.
  - cbn. lia.
Defined.

(** ** Heading text *)

Module TextFacts.
Import PyStr PyStrFacts.

Lemma join_cons2 sep x y l :
  join sep (x :: y :: l) = x +:+ sep +:+ join sep (y :: l).
Proof. reflexivity. Qed.

(** A text that stripping leaves as it is, and that is not empty, starts
    and ends with a character that is no blank. *)
Lemma stripped_ends t :
  strip t = t -> t <> "" -> lstrip t = t /\ rstrip t = t.
Proof.
  intros Hs Hne. unfold strip in Hs.
  destruct (RunFacts.lstrip_starts t) as [E | E].
  - rewrite E in Hs. cbn in Hs. congruence.
  - apply RunFacts.rstrip_starts in E. rewrite Hs in E.
    pose proof (ExtractFacts.lstrip_id t E) as Hl.
    split; [exact Hl |]. now rewrite Hl in Hs.
Qed.

Lemma rstrip_app_stripped x b :
  rstrip b = b -> b <> "" -> rstrip (x +:+ b) = x +:+ b.
Proof.
  intros Hb Hne. induction x as [| c x IH]; [now rewrite app_nil_l |].
  rewrite app_cons. cbn [rstrip]. rewrite IH.
  assert (nonempty (x +:+ b) = true) as ->.
  { destruct x; [rewrite app_nil_l; now apply nonempty_true | reflexivity]. }
  now rewrite andb_false_r.
Qed.

Lemma app_nonempty a b : a <> "" -> a +:+ b <> "".
Proof. destruct a; [congruence |]. rewrite app_cons. discriminate. Qed.

(** Stripped, non-empty pieces joined by a space make a stripped,
    non-empty text. *)
Lemma join_stripped l :
  l <> [] ->
  (forall t, t ∈ l -> strip t = t /\ t <> "") ->
  let j := join " " l in lstrip j = j /\ rstrip j = j /\ j <> "".
Proof.
  cbv zeta. induction l as [| x l IH]; [congruence |]. intros _ H.
  destruct (H x ltac:(left)) as [Hx Hxne].
  destruct (stripped_ends x Hx Hxne) as [Hxl Hxr].
  destruct l as [| y l]; [cbn [join]; auto |].
  rewrite join_cons2.
  destruct IH as (_ & Hjr & Hjne);
    [discriminate | intros t Ht; apply H; now right |].
  split; [| split].
  - apply ExtractFacts.lstrip_app_start.
    destruct x as [| c x]; [congruence |].
    cbn in Hxl |- *. unfold nonspace.
    destruct (isspace c) eqn:Ec; [| reflexivity].
    exfalso. clear -Hxl.
    assert (String.length (lstrip x) <= String.length x)%nat as Hlen.
    { clear. induction x as [| a x IH]; [cbn; lia |].
      cbn [lstrip]. destruct (isspace a); cbn [String.length] in *; lia. }
    rewrite Hxl in Hlen. cbn in Hlen. lia.
  - rewrite <- app_assoc. rewrite rstrip_app_stripped by assumption.
    reflexivity.
  - now apply app_nonempty.
Qed.

Lemma join_nil_iff l :
  (forall t, t ∈ l -> t <> "") -> join " " l = "" <-> l = [].
Proof.
  intros H. split; [| now intros ->].
  destruct l as [| x l]; [reflexivity |]. intros E. exfalso.
  apply (H x ltac:(left)).
  destruct l as [| y l]; [exact E |].
  rewrite join_cons2 in E. destruct x; [reflexivity | discriminate].
Qed.

Lemma pieces_stripped (l : list string) t :
  t ∈ List.filter nonempty (strip <$> l) ->
  strip t = t /\ t <> "".
Proof.
  intros Ht. apply list_elem_of_In, filter_In in Ht as [Ht Hne].
  split; [| now apply nonempty_true].
  apply list_elem_of_In, list_elem_of_fmap in Ht as (s & -> & _).
  apply RunFacts.strip_idem.
Qed.

End TextFacts.

Module HeadingFacts.
Import PyStr PyStrFacts.

Lemma strings_string_nodes types n :
  strings types n
  = snd <$> List.filter (fun ks => types (fst ks)) (string_nodes n).
Proof.
  induction n as [cl s | nm a cs IH] using node_induction.
  - cbn. destruct (types cl); reflexivity.
  - cbn [strings string_nodes].
    induction IH as [| c cs Hc _ IHcs]; [reflexivity |].
    cbn [flat_map]. rewrite List.filter_app, fmap_app, Hc, IHcs.
    reflexivity.
Qed.

(** The text of a [p] or an [h1] is made of the strings of plain text
    below it. *)
Lemma text_pieces_text_strings el :
  name el = "p" \/ name el = "h1" -> text_pieces el = text_strings el.
Proof.
  intros H. unfold text_pieces, text_strings. rewrite strings_string_nodes.
  f_equal. apply List.filter_ext. intros [k s]. cbn [fst].
  destruct H as [-> | ->]; now destruct k.
Qed.

Lemma select_one_h1_name sp el : select_one_h1 sp = Some el -> name el = "h1".
Proof.
  intros (_ & _ & _ & H & _)%RunFacts.head_filter_Some.
  now apply String.eqb_eq in H.
Qed.

Lemma select_one_title_number_name sp el :
  select_one_title_number sp = Some el -> name el = "p".
Proof.
  intros (_ & _ & _ & H & _)%RunFacts.head_filter_Some.
  apply andb_true_iff in H as [H _]. now apply String.eqb_eq in H.
Qed.

(** Stripped strings joined by single blanks. *)
Lemma joined_spec (l : list string) :
  let h := join " " (List.filter nonempty (strip <$> l)) in
  strip h = h
  /\ (h = "" <-> forall s, s ∈ l -> strip s = "")
  /\ (forall s, l = [s] -> h = strip s)
  /\ (forall s t,
         l = [s; t] -> strip s <> "" -> strip t <> "" ->
         h = strip s +:+ " " +:+ strip t).
Proof.
  cbv zeta.
  set (pieces := List.filter nonempty (strip <$> l)).
  assert (forall t, t ∈ pieces -> strip t = t /\ t <> "") as Hp
    by (intros t; apply TextFacts.pieces_stripped).
  split; [| split; [| split]].
  - destruct pieces as [| x q] eqn:E; [reflexivity |].
    destruct (TextFacts.join_stripped (x :: q) ltac:(discriminate) Hp)
      as (Hl & Hr & _).
    unfold strip. now rewrite Hl, Hr.
  - rewrite TextFacts.join_nil_iff by (intros t Ht; now apply Hp).
    unfold pieces. split.
    + intros Hnil s Hs.
      destruct (nonempty (strip s)) eqn:En; [| now apply nonempty_false].
      exfalso.
      assert (strip s ∈ List.filter nonempty (strip <$> l)) as Hin.
      { apply list_elem_of_In, filter_In. split; [| exact En].
        apply list_elem_of_In, list_elem_of_fmap. eauto. }
      rewrite Hnil in Hin. inversion Hin.
    + intros Hall. apply DomFacts.filter_nil. intros t Ht.
      apply list_elem_of_fmap in Ht as (s & -> & Hs).
      now rewrite (Hall s Hs).
  - intros s ->. unfold pieces. cbn.
    destruct (nonempty (strip s)) eqn:En; [reflexivity |].
    apply nonempty_false in En. now rewrite En.
  - intros s t -> Hs%nonempty_true Ht%nonempty_true. unfold pieces. cbn.
    now rewrite Hs, Ht.
Qed.

End HeadingFacts.

Example heading_keeps_inner_blanks :
  get_text_or_empty (select_one_h1 Samples.headings) = "Lesson  5"
  /\ get_text_or_empty (select_one_title_number Samples.headings)
     = "Week 5".
Proof. split; reflexivity. Qed.

Example heading_blank_between_strings :
  get_text_or_empty (select_one_h1 Samples.split_heading) = "Les son 5"
  /\ option_map concatenated_text (select_one_h1 Samples.split_heading)
     = Some "Lesson 5".
Proof. split; reflexivity. Qed.

(** C9, as stated, fails: a heading is not the whitespace-normalized
    concatenated text of the element.  For [<h1>Lesson  5</h1>] the field
    is the string as it stands, two blanks inside, where normalising gives
    one. *)
Lemma heading_not_whitespace_normalized :
  ~ (forall env w r el,
        let week := iso_week_number (today env) in
        http_get env (BASE +:+ MANUAL_PATH_format week) = inr r ->
        raise_for_status r = None ->
        select_one_h1 (snd (Samples.parse (text r))) = Some el ->
        exists p,
          fst (scrape_week Samples.resolve Samples.parse env week w) = inr p
          /\ big_heading p = whitespace_normalized_text el).
Proof.
  intros H.
  destruct (H (Samples.answering 200 "OK" Samples.headings_page)
              Samples.empty_world
              {| status_code := 200; reason := "OK";
                 url_of := BASE +:+ MANUAL_PATH_format 45;
                 text := Samples.headings_page |}
              (Samples.elem "h1" [] [ Samples.str "Lesson  5" ])
              eq_refl eq_refl eq_refl)
    as (p & Hp & Hbig).
  vm_compute in Hp. injection Hp as <-.
  vm_compute in Hbig. discriminate Hbig.
Qed.

(** C9, amended.  After a successful fetch each heading field is made of
    the strings of plain text below the first element, in document order,
    that matches its selector (comments and the content of scripts or
    style sheets left out): every string is stripped of surrounding
    whitespace, the empty ones are dropped and the rest are joined by
    single blanks.  Whitespace inside a string is kept as it stands and a
    blank is put between two strings even where the page has none; the
    field never starts or ends with whitespace and is empty exactly when
    every string is blank.  The field is the empty string when no element
    matches, and each field depends on its own selector only.  When both
    selectors miss, both fields are empty and the run still exits with
    status 0 and writes the record to the output file. *)
Theorem headings_stripped_strings_joined
    (urljoin : string -> string -> string)
    (parse_html : string -> list string * node)
    (json_dumps : payload -> string) (env : environment) (w : world)
    (r : response) :
  let week := iso_week_number (today env) in
  let url := BASE +:+ MANUAL_PATH_format week in
  let sp := snd (parse_html (text r)) in
  let run := main urljoin parse_html json_dumps env w in
  http_get env url = inr r ->
  200 <= status_code r < 300 ->
  exists p,
    fst (scrape_week urljoin parse_html env week w) = inr p
    /\ (forall h hit,
           (h, hit) = (small_heading p, select_one_title_number sp)
           \/ (h, hit) = (big_heading p, select_one_h1 sp) ->
           PyStr.strip h = h
           /\ (hit = None -> h = "")
           /\ forall el,
                hit = Some el ->
                h = PyStr.join " "
                      (List.filter PyStr.nonempty
                         (PyStr.strip <$> text_strings el))
                /\ (h = ""
                    <-> forall s, s ∈ text_strings el -> PyStr.strip s = "")
                /\ (forall s, text_strings el = [s] -> h = PyStr.strip s)
                /\ (forall s t,
                       text_strings el = [s; t] ->
                       PyStr.strip s <> "" -> PyStr.strip t <> "" ->
                       h = PyStr.strip s +:+ " " +:+ PyStr.strip t))
    /\ (forall el,
           select_one_title_number sp = Some el
           <-> exists l1 l2,
                 element <$> descendants (whole sp) = l1 ++ el :: l2
                 /\ is_title_number el = true
                 /\ forall y, y ∈ l1 -> is_title_number y = false)
    /\ (forall el,
           select_one_h1 sp = Some el
           <-> exists l1 l2,
                 element <$> descendants (whole sp) = l1 ++ el :: l2
                 /\ is_h1 el = true
                 /\ forall y, y ∈ l1 -> is_h1 y = false)
    /\ (select_one_title_number sp = None ->
        select_one_h1 sp = None ->
        Os.dirname OUT_JSON ∉ dom (files w) ->
        OUT_JSON ∉ directories w ->
        small_heading p = "" /\ big_heading p = ""
        /\ fst run = 0
        /\ files (snd run) = <[ OUT_JSON := json_dumps p ]> (files w)).
Proof.
  cbv zeta. intros Hget Hstatus.
  assert (raise_for_status r = None) as Hok
      by (apply RunFacts.raise_for_status_None; lia).
  unfold main, scrape_week. rewrite Hget, Hok. cbn [fst snd].
  eexists. split; [reflexivity |]. cbn [small_heading big_heading].
  split; [| split; [| split]].
  - assert (forall hit,
               (forall el, hit = Some el -> name el = "p" \/ name el = "h1")
               -> PyStr.strip (get_text_or_empty hit) = get_text_or_empty hit
                  /\ (hit = None -> get_text_or_empty hit = "")
                  /\ forall el,
                       hit = Some el ->
                       get_text_or_empty hit
                       = PyStr.join " "
                           (List.filter PyStr.nonempty
                              (PyStr.strip <$> text_strings el))
                       /\ (get_text_or_empty hit = ""
                           <-> forall s, s ∈ text_strings el ->
                                         PyStr.strip s = "")
                       /\ (forall s, text_strings el = [s] ->
                                     get_text_or_empty hit = PyStr.strip s)
                       /\ (forall s t,
                              text_strings el = [s; t] ->
                              PyStr.strip s <> "" -> PyStr.strip t <> "" ->
                              get_text_or_empty hit
                              = PyStr.strip s +:+ " " +:+ PyStr.strip t))
      as Hfield.
    { intros [el |] Hname; cbn [get_text_or_empty].
      2: { split; [reflexivity |]. split; [reflexivity | discriminate]. }
      unfold get_text.
      rewrite (HeadingFacts.text_pieces_text_strings el (Hname el eq_refl)).
      destruct (HeadingFacts.joined_spec (text_strings el))
        as (Hstrip & Hempty & Hone & Htwo).
      split; [exact Hstrip |]. split; [discriminate |].
      intros el' [= <-]. auto. }
    intros h hit [[= -> ->] | [= -> ->]]; apply Hfield; intros el Hel.
    + left. now apply (HeadingFacts.select_one_title_number_name _ _ Hel).
    + right. now apply (HeadingFacts.select_one_h1_name _ _ Hel).
  - intros el; apply RunFacts.head_filter_Some.
  - intros el; apply RunFacts.head_filter_Some.
  - intros Hsmall Hbig Hdir Hfile.
    rewrite Hsmall, Hbig. cbn [get_text_or_empty].
    split; [reflexivity |]. split; [reflexivity |].
    unfold Os.makedirs.
    replace (negb (PyStr.nonempty (Os.dirname OUT_JSON))) with false
      by reflexivity.
    cbn [Os.show_warnings files directories].
    rewrite (bool_decide_eq_false_2 _ Hdir).
    unfold Os.write_file. cbn [directories files].
    rewrite bool_decide_eq_false_2; [split; reflexivity |].
    intros [Hin%elem_of_singleton | Hin]%elem_of_union;
      [discriminate Hin | now apply Hfile].
Qed.

Lemma headings_stripped_strings_joined_witness :
  exists p,
    fst (scrape_week Samples.resolve Samples.parse
           (Samples.answering 200 "OK" Samples.split_heading_page) 45
           Samples.empty_world) = inr p
    /\ small_heading p = ""
    /\ big_heading p = "Les son 5".
Proof.
  destruct (headings_stripped_strings_joined
              Samples.resolve Samples.parse Samples.dumps
              (Samples.answering 200 "OK" Samples.split_heading_page)
              Samples.empty_world
              {| status_code := 200; reason := "OK";
                 url_of := BASE +:+ MANUAL_PATH_format 45;
                 text := Samples.split_heading_page |}
              eq_refl ltac:(cbn; lia))
    as (p & Hp & Hfields & _).
  exists p. split; [exact Hp |]. split.
  - apply (Hfields (small_heading p) None); [left | reflexivity].
    vm_compute. reflexivity.
  - destruct (Hfields (big_heading p)
                (select_one_h1 Samples.split_heading)
                ltac:(right; reflexivity))
      as (_ & _ & Hjoin).
    destruct (Hjoin _ eq_refl) as (-> & _). vm_compute. reflexivity.
Defined.

Lemma pick_top_image_first_acceptable_witness :
  pick_top_image Samples.resolve Samples.plain = "".
Proof.
  apply (proj2 (proj2 (pick_top_image_first_acceptable
                         Samples.resolve Samples.plain))).
  intros el Hel. vm_compute in Hel.
  apply list_elem_of_singleton in Hel. subst el.
  split; discriminate.
Defined.

(* ===================================================================== *)
(** * Further properties of the code                                      *)
(* ===================================================================== *)

Lemma pick_top_image_passes_filter_witness :
  (forall s, s ∈ bad_substrings ->
             PyStr.contains s
               (PyStr.lower
                  (pick_top_image Samples.resolve Samples.outside_main))
             = false)
  /\ UrlSpec.is_data_image
       (pick_top_image Samples.resolve Samples.outside_main) = false
  /\ PyStr.endswith ".svg"
       (PyStr.lower
          (PyStr.strip (pick_top_image Samples.resolve Samples.outside_main)))
     = false
  /\ PyStr.contains ".svg?"
       (PyStr.lower (pick_top_image Samples.resolve Samples.outside_main))
     = false.
Proof.
  apply (pick_top_image_passes_filter Samples.resolve Samples.outside_main).
  - reflexivity.
  - vm_compute. discriminate.
Defined.

(** ** Image selector: where the result comes from *)

Module SelectorFacts.

Lemma select_descendant sel root el :
  el ∈ select sel root -> el ∈ descendants root /\ matches sel el = true.
Proof.
  unfold select. intros H.
  apply list_elem_of_In, filter_In in H as [H1 H2].
  split; [now apply list_elem_of_In | exact H2].
Qed.

Lemma descendant_select sel root el :
  el ∈ descendants root -> matches sel el = true -> el ∈ select sel root.
Proof.
  intros H1 H2. unfold select.
  apply list_elem_of_In, filter_In.
  split; [now apply list_elem_of_In | exact H2].
Qed.

(** The elements a root's three passes visit are [picture] and [img]
    elements below the root. *)
Lemma traversal_descendant root el :
  el ∈ traversal root -> el ∈ descendants root /\ is_image el.
Proof.
  unfold traversal, is_image.
  intros [H | [H | H]%elem_of_app]%elem_of_app;
    apply select_descendant in H as [Hd Hm]; split; try exact Hd;
    unfold matches in Hm.
  - left. now apply String.eqb_eq.
  - right. apply andb_true_iff in Hm as [Hm _]. now apply String.eqb_eq.
  - right. now apply String.eqb_eq.
Qed.

Lemma image_traversal root el :
  el ∈ descendants root -> is_image el -> el ∈ traversal root.
Proof.
  intros Hd [Hn | Hn]; unfold traversal.
  - apply elem_of_app. left. apply descendant_select; [exact Hd |].
    unfold matches. now rewrite Hn.
  - apply elem_of_app. right. apply elem_of_app. right.
    apply descendant_select; [exact Hd |]. unfold matches. now rewrite Hn.
Qed.

(** The search roots are the document or elements of it. *)
Lemma search_root_cases sp root :
  root ∈ search_roots sp ->
  root = whole sp \/ root ∈ descendants (whole sp).
Proof.
  unfold search_roots. fold (whole sp).
  destruct (select SelMainArticle (whole sp)) as [| r rs] eqn:E.
  - intros H. apply list_elem_of_singleton in H. now left.
  - rewrite <- E. intros H. right. now apply select_descendant in H as [H _].
Qed.

(** Everything either search visits is a [picture] or [img] element of the
    document. *)
Lemma visited_in_document sp el :
  el ∈ scoped_traversal sp ++ traversal (whole sp) ->
  el ∈ descendants (whole sp) /\ is_image el.
Proof.
  intros [H | H]%elem_of_app; [| now apply traversal_descendant].
  unfold scoped_traversal in H.
  apply DomFacts.elem_of_flat_map in H as (root & Hroot & Hel).
  apply traversal_descendant in Hel as [Hd Hi]. split; [| exact Hi].
  destruct (search_root_cases sp root Hroot) as [-> | Hr]; [exact Hd |].
  eapply DomFacts.descendants_trans; eassumption.
Qed.

End SelectorFacts.

(** X2.  A URL that the selector returns is the URL of an element of the
    document: there is a [picture] or [img] element whose extracted URL,
    stripped, is not empty and resolves to the result. *)
Theorem pick_top_image_from_element
    (urljoin : string -> string -> string) (sp : node) (u : string) :
  pick_top_image urljoin sp = u -> u <> "" ->
  exists el,
    el ∈ descendants (whole sp) /\ is_image el
    /\ PyStr.strip (extract urljoin (element el)) <> ""
    /\ u = urljoin BASE (PyStr.strip (extract urljoin (element el))).
Proof.
  intros Hu Hne. rewrite ScanFacts.pick_top_image_first in Hu.
  destruct (first_acceptable urljoin _) as [v |] eqn:E; cbn in Hu; subst u;
    [| congruence].
  apply ScanFacts.first_acceptable_Some in E as (_ & el & Hin & Hv).
  apply SelectorFacts.visited_in_document in Hin as [Hd Hi].
  exists el. split; [exact Hd |]. split; [exact Hi |].
  unfold candidate_url in Hv.
  destruct (PyStr.nonempty (PyStr.strip (extract urljoin (element el))))
    eqn:En; [| congruence].
  split; [now apply PyStrFacts.nonempty_true |].
  unfold absolute_url in Hv. now rewrite En in Hv.
Qed.

Lemma pick_top_image_from_element_witness :
  exists el,
    el ∈ descendants (whole Samples.one_root) /\ is_image el
    /\ PyStr.strip (extract Samples.resolve (element el)) <> ""
    /\ "https://www.churchofjesuschrist.org/b.jpg"
       = Samples.resolve BASE
           (PyStr.strip (extract Samples.resolve (element el))).
Proof.
  apply (pick_top_image_from_element Samples.resolve Samples.one_root).
  - vm_compute. reflexivity.
  - discriminate.
Defined.

(** X3.  The selector returns a URL exactly when the document has one to
    offer: the result is not the empty string if and only if some [picture]
    or [img] element of the document, inside or outside the [main] and
    [article] regions, has an acceptable URL. *)
Theorem pick_top_image_nonempty_iff
    (urljoin : string -> string -> string) (sp : node) :
  pick_top_image urljoin sp <> ""
  <-> exists el,
        el ∈ descendants (whole sp) /\ is_image el
        /\ acceptable (candidate_url urljoin el) = true.
Proof.
  rewrite ScanFacts.pick_top_image_first. split.
  - destruct (first_acceptable urljoin _) as [v |] eqn:E; [| cbn; congruence].
    intros _.
    apply ScanFacts.first_acceptable_Some in E as (Ha & el & Hin & <-).
    apply SelectorFacts.visited_in_document in Hin as [Hd Hi]. eauto.
  - intros (el & Hd & Hi & Ha).
    destruct (first_acceptable urljoin _) as [v |] eqn:E.
    + apply ScanFacts.first_acceptable_Some in E as (Hv & _).
      cbn. intros ->. discriminate Hv.
    + exfalso.
      rewrite ScanFacts.first_acceptable_None in E.
      rewrite (E el) in Ha; [discriminate |].
      apply elem_of_app. right.
      now apply SelectorFacts.image_traversal.
Qed.

Lemma pick_top_image_nonempty_iff_witness :
  pick_top_image Samples.resolve Samples.outside_main <> "".
Proof.
  apply (proj2 (pick_top_image_nonempty_iff
                  Samples.resolve Samples.outside_main)).
  exists (Loc [document_name] (Samples.img "/late.jpg")).
  split; [| split].
  - vm_compute. do 4 right. left.
  - right. reflexivity.
  - vm_compute. reflexivity.
Defined.

(** ** The filter: what it depends on and what it rejects *)

Module FilterMore.
Import PyStr PyStrFacts.

Lemma lower_char_idem c : lower_char (lower_char c) = lower_char c.
Proof. destruct c as [[] [] [] [] [] [] [] []]; reflexivity. Qed.

Lemma lower_idem s : lower (lower s) = lower s.
Proof.
  induction s as [| c s IH]; [reflexivity |].
  cbn. now rewrite lower_char_idem, IH.
Qed.

(** The verdict is a function of the stripped, lower-cased text. *)
Lemma bad_image_ext u1 u2 :
  lower (strip u1) = lower (strip u2) ->
  _looks_like_bad_image u1 = _looks_like_bad_image u2.
Proof. unfold _looks_like_bad_image. now intros ->. Qed.

End FilterMore.

(** X4.  The verdict of the filter does not depend on letter case or on
    blanks around the URL: two URLs with the same lower-cased text get the
    same verdict, stripping a URL does not change its verdict, and a URL
    that is empty or all blanks is rejected. *)
Theorem looks_like_bad_image_case_and_blanks :
  (forall u1 u2,
      PyStr.lower u1 = PyStr.lower u2 ->
      _looks_like_bad_image u1 = _looks_like_bad_image u2)
  /\ (forall u, _looks_like_bad_image (PyStr.strip u) = _looks_like_bad_image u)
  /\ (forall u, PyStr.strip u = "" -> _looks_like_bad_image u = true).
Proof.
  split; [| split].
  - intros u1 u2 H. apply FilterMore.bad_image_ext.
    now rewrite !FilterFacts.lower_strip, H.
  - intros u. apply FilterMore.bad_image_ext.
    now rewrite RunFacts.strip_idem.
  - intros u H. unfold _looks_like_bad_image. now rewrite H.
Qed.

Lemma looks_like_bad_image_case_and_blanks_witness :
  _looks_like_bad_image "HTTPS://X.ORG/Header-LOGO.PNG"
  = _looks_like_bad_image "https://x.org/header-logo.png".
Proof.
  apply (proj1 looks_like_bad_image_case_and_blanks).
  reflexivity.
Defined.

(** X5.  The filter rejects every URL that has a denylisted substring
    anywhere in its text, in any letter case, every URL that starts with
    [data:image] or ends with [.svg] once stripped and lower-cased, and
    every URL that contains [.svg?]. *)
Theorem looks_like_bad_image_rejects (u : string) :
  (exists s, s ∈ bad_substrings
             /\ PyStr.contains s (PyStr.lower u) = true)
  \/ UrlSpec.is_data_image u = true
  \/ PyStr.endswith ".svg" (PyStr.lower (PyStr.strip u)) = true
  \/ PyStr.contains ".svg?" (PyStr.lower u) = true ->
  _looks_like_bad_image u = true.
Proof.
  unfold _looks_like_bad_image, UrlSpec.is_data_image.
  intros H.
  destruct (PyStr.nonempty (PyStr.lower (PyStr.strip u))); [| reflexivity].
  cbn [negb].
  destruct (PyStr.startswith "data:image" _) eqn:Hd; [reflexivity |].
  destruct (PyStr.endswith ".svg" _) eqn:He; [reflexivity |].
  cbn [orb].
  rewrite FilterFacts.lower_strip.
  rewrite FilterFacts.contains_strip by (discriminate || reflexivity).
  destruct (PyStr.contains ".svg?" (PyStr.lower u)) eqn:Hq; [reflexivity |].
  destruct H as [(s & Hs & Hc) | [H | [H | H]]]; try discriminate H.
  assert (existsb (fun s0 => PyStr.contains s0 (PyStr.strip (PyStr.lower u)))
            bad_substrings = true) as ->; [| reflexivity].
  apply existsb_exists. exists s. split; [now apply list_elem_of_In |].
  rewrite <- Hc. unfold bad_substrings in Hs.
  repeat (apply elem_of_cons in Hs as [-> | Hs];
          [apply FilterFacts.contains_strip; [discriminate | reflexivity] |]).
  inversion Hs.
Qed.

Lemma looks_like_bad_image_rejects_witness :
  _looks_like_bad_image "https://x.org/img/Site-Logo.PNG " = true.
Proof.
  apply looks_like_bad_image_rejects.
  left. exists "logo". split.
  - unfold bad_substrings. do 3 right. left.
  - vm_compute. reflexivity.
Defined.

(** ** Responsive candidate lists: the text that is returned *)

Module SrcsetMore.
Import PyStr PyStrFacts SrcsetSpec ExtractSpec.

Lemma all_app q a b : all q (a +:+ b) = all q a && all q b.
Proof.
  induction a as [| c a IH]; [reflexivity |].
  rewrite app_cons. cbn [all]. now rewrite IH, andb_assoc.
Qed.

Lemma all_lstrip q s : all q s = true -> all q (lstrip s) = true.
Proof.
  induction s as [| c s IH]; [reflexivity |].
  cbn [lstrip]. destruct (isspace c); [| auto].
  cbn [all]. intros [_ H]%andb_true_iff. auto.
Qed.

Lemma all_rstrip q s : all q s = true -> all q (rstrip s) = true.
Proof.
  induction s as [| c s IH]; [reflexivity |].
  cbn [rstrip all]. intros [Hc Hs]%andb_true_iff.
  destruct (isspace c && negb (nonempty (rstrip s))); [reflexivity |].
  cbn [all]. now rewrite Hc, IH.
Qed.

Lemma all_strip q s : all q s = true -> all q (strip s) = true.
Proof. intros H. unfold strip. now apply all_rstrip, all_lstrip. Qed.

Lemma all_and (p q : ascii -> bool) s :
  all p s = true -> all q s = true ->
  all (fun c => p c && q c) s = true.
Proof.
  induction s as [| c s IH]; [reflexivity |].
  cbn [all]. intros [Hp Hps]%andb_true_iff [Hq Hqs]%andb_true_iff.
  now rewrite Hp, Hq, IH.
Qed.

(** The fields of a split hold no separator. *)
Lemma split_fields sep s p :
  p ∈ split sep s -> all (fun c => negb (Ascii.eqb c sep)) p = true.
Proof.
  revert p. induction s as [| c s IH]; intros p; cbn [split].
  - intros H. apply list_elem_of_singleton in H. now subst p.
  - destruct (Ascii.eqb c sep) eqn:E.
    + intros [-> | H]%elem_of_cons; [reflexivity | now apply IH].
    + pose proof (split_nonnil sep s) as Hn.
      destruct (split sep s) as [| h t]; [congruence |].
      intros [-> | H]%elem_of_cons.
      * cbn [all]. rewrite E. cbn. apply IH. left.
      * apply IH. now right.
Qed.

Lemma collect_candidates_from parts c :
  c ∈ collect_candidates parts ->
  exists p, p ∈ parts /\ match_candidate (strip p) = Some c.
Proof.
  induction parts as [| p parts IH]; cbn; [intros H; inversion H |].
  destruct (match_candidate (strip p)) as [c' |] eqn:E.
  - intros [-> | H]%elem_of_cons.
    + exists p. split; [left | exact E].
    + destruct (IH H) as (p' & Hp' & Hm).
      exists p'. split; [now right | exact Hm].
  - intros H. destruct (IH H) as (p' & Hp' & Hm).
    exists p'. split; [now right | exact Hm].
Qed.

(** The URL of a candidate has neither a blank nor a comma. *)
Lemma candidate_url_chars srcset c :
  c ∈ candidates_of srcset -> all url_char (snd c) = true.
Proof.
  intros H. apply collect_candidates_from in H as (p & Hp & Hm).
  apply (split_fields "," srcset p) in Hp.
  apply (all_strip _ p) in Hp.
  destruct c as [n u].
  apply PatternFacts.match_candidate_spec in Hm
    as (g2 & (ws & rest & E & _ & Hu & _) & _).
  rewrite E, all_app in Hp. apply andb_true_iff in Hp as [Hp _].
  cbn [snd]. now apply all_and.
Qed.

Lemma occurs_refl s : occurs s s.
Proof. exists "", "". now rewrite app_nil_l, app_nil_r. Qed.

Lemma occurs_trans p q s : occurs p q -> occurs q s -> occurs p s.
Proof.
  intros (a & b & ->) (a' & b' & ->).
  exists (a' +:+ a), (b +:+ b'). now rewrite !app_assoc.
Qed.

Lemma occurs_prefix p b : occurs p (p +:+ b).
Proof. exists "", b. reflexivity. Qed.

Lemma startswith_app p b : startswith p (p +:+ b) = true.
Proof.
  induction p as [| c p IH]; [reflexivity |].
  rewrite app_cons. cbn. now rewrite Ascii.eqb_refl, IH.
Qed.

Lemma startswith_contains p s : startswith p s = true -> contains p s = true.
Proof. intros H. destruct s; cbn [contains]; now rewrite H. Qed.

Lemma occurs_contains p s : occurs p s -> contains p s = true.
Proof.
  intros (a & b & ->). induction a as [| c a IH].
  - rewrite app_nil_l. apply startswith_contains, startswith_app.
  - rewrite app_cons, FilterFacts.contains_cons, IH. apply orb_true_r.
Qed.

Lemma occurs_lstrip s : occurs (lstrip s) s.
Proof.
  induction s as [| c s IH]; [apply occurs_refl |].
  cbn [lstrip]. destruct (isspace c); [| apply occurs_refl].
  destruct IH as (a & b & E). exists (String c a), b.
  now rewrite app_cons, <- E.
Qed.

Lemma rstrip_prefix s : exists b, s = rstrip s +:+ b.
Proof.
  induction s as [| c s [b E]]; [now exists "" |].
  cbn [rstrip]. destruct (isspace c && negb (nonempty (rstrip s))).
  - now exists (String c s).
  - exists b. now rewrite app_cons, <- E.
Qed.

Lemma occurs_strip s : occurs (strip s) s.
Proof.
  unfold strip. apply (occurs_trans _ (lstrip s)); [| apply occurs_lstrip].
  destruct (rstrip_prefix (lstrip s)) as [b E].
  rewrite E at 2. apply occurs_prefix.
Qed.

(** A field of a split occurs in the text. *)
Lemma occurs_field sep s p : p ∈ split sep s -> occurs p s.
Proof.
  revert p. induction s as [| c s IH]; intros p; cbn [split].
  - intros H. apply list_elem_of_singleton in H. subst p. apply occurs_refl.
  - destruct (Ascii.eqb c sep) eqn:E.
    + intros [-> | H]%elem_of_cons.
      * exists "", (String c s). reflexivity.
      * destruct (IH p H) as (a & b & Es). exists (String c a), b.
        now rewrite app_cons, <- Es.
    + pose proof (split_nonnil sep s) as Hn.
      destruct (split sep s) as [| h t] eqn:Esp; [congruence |].
      intros [-> | H]%elem_of_cons.
      * (* the first field goes on from [c] *)
        assert (exists b, s = h +:+ b) as [b Eb].
        { clear -Esp. revert h t Esp.
          induction s as [| x s IHs]; intros h t Esp; cbn [split] in Esp.
          - injection Esp as <- _. now exists "".
          - destruct (Ascii.eqb x sep).
            + injection Esp as <- _. now exists (String x s).
            + pose proof (split_nonnil sep s) as Hn.
              destruct (split sep s) as [| h' t'] eqn:E'; [congruence |].
              injection Esp as <- _.
              destruct (IHs h' t' eq_refl) as [b Eb].
              exists b. now rewrite app_cons, <- Eb. }
        exists "", b. rewrite app_nil_l, app_cons. now rewrite <- Eb.
      * destruct (IH p ltac:(now right)) as (a & b & Es).
        exists (String c a), b. now rewrite app_cons, <- Es.
Qed.

(** The URL of a candidate is text of the list. *)
Lemma candidate_url_occurs srcset c :
  c ∈ candidates_of srcset -> occurs (snd c) srcset.
Proof.
  intros H. apply collect_candidates_from in H as (p & Hp & Hm).
  apply occurs_field in Hp.
  destruct c as [n u].
  apply PatternFacts.match_candidate_spec in Hm
    as (g2 & (ws & rest & E & _) & _).
  cbn [snd].
  apply (occurs_trans _ (strip p)); [| now apply (occurs_trans _ p);
                                        [apply occurs_strip |]].
  rewrite E. apply occurs_prefix.
Qed.

End SrcsetMore.

(** X6.  [_largest_from_srcset] returns the empty string exactly when no
    entry of the list parses as a URL with a width; what it returns
    otherwise is text of the list itself, without a blank or a comma in
    it. *)
Theorem largest_from_srcset_text (srcset : string) :
  (_largest_from_srcset srcset = "" <-> candidates_of srcset = [])
  /\ PyStr.all ExtractSpec.url_char (_largest_from_srcset srcset) = true
  /\ occurs (_largest_from_srcset srcset) srcset.
Proof.
  rewrite SrcsetFacts.largest_from_srcset_widest.
  destruct (candidates_of srcset) as [| x l] eqn:E.
  - cbn. split; [tauto |]. split; [reflexivity |].
    exists "", srcset. reflexivity.
  - destruct (SrcsetFacts.widest_nonnil (x :: l) ltac:(discriminate))
      as [m Hm].
    rewrite Hm. cbn [from_option].
    apply SrcsetFacts.widest_max in Hm as [Hin _]. rewrite <- E in Hin.
    split; [| split].
    + split; [| discriminate]. intros H.
      apply ExtractFacts.collect_candidates_url in Hin. contradiction.
    + now apply (SrcsetMore.candidate_url_chars srcset).
    + now apply SrcsetMore.candidate_url_occurs.
Qed.

(** X7.  The pattern of the candidate parser is not anchored at the end of
    the entry: an entry that parses still parses, to the same URL and
    width, with any text appended after the [w]. *)
Theorem match_candidate_ignores_tail (part tail : string) (c : N * string) :
  match_candidate part = Some c ->
  match_candidate (part +:+ tail) = Some c.
Proof.
  destruct c as [n u]. rewrite !PatternFacts.match_candidate_spec.
  intros (g2 & (ws & rest & -> & H) & ->).
  exists g2. split; [| reflexivity].
  exists ws, (rest +:+ tail). split; [| exact H].
  now rewrite !PyStrFacts.app_assoc.
Qed.

Lemma match_candidate_ignores_tail_witness :
  match_candidate ("a.jpg 100w" +:+ "ide 2x") = Some (100%N, "a.jpg").
Proof.
  apply (match_candidate_ignores_tail "a.jpg 100w" "ide 2x").
  reflexivity.
Defined.

(** ** Plain images: which attribute is read *)

Module BestImageFacts.

Lemma get_without_attr key tag k :
  k <> key -> get (without_attr key tag) k = get tag k.
Proof.
  intros H. destruct tag as [nm a cs | cl s]; [| reflexivity].
  cbn. now rewrite lookup_delete_ne by congruence.
Qed.

End BestImageFacts.

(** X8.  For a plain image the [srcset] attribute, when it is not empty,
    hides [data-srcset] altogether, even when [srcset] has no width
    descriptor and [data-srcset] has; and when the list that is read has a
    width candidate, the widest one is returned whatever the [src]-like
    attributes hold. *)
Theorem pick_best_image_precedence
    (urljoin : string -> string -> string) (tag : node) :
  (get tag "srcset" <> "" ->
   pick_best_image_from_tag urljoin (Some tag)
   = pick_best_image_from_tag urljoin
       (Some (without_attr "data-srcset" tag)))
  /\ (candidates_of (srcset_of tag) <> [] ->
      pick_best_image_from_tag urljoin (Some tag)
      = absolute_url urljoin (_largest_from_srcset (srcset_of tag))).
Proof.
  split.
  - intros H. apply PyStrFacts.nonempty_true in H.
    unfold pick_best_image_from_tag, srcset_of, src_attrs.
    cbn [first_attr].
    rewrite (BestImageFacts.get_without_attr _ tag "srcset"),
      (BestImageFacts.get_without_attr _ tag "src"),
      (BestImageFacts.get_without_attr _ tag "data-src"),
      (BestImageFacts.get_without_attr _ tag "data-lazy-src"),
      (BestImageFacts.get_without_attr _ tag "data-original")
      by discriminate.
    rewrite H. reflexivity.
  - intros H. unfold pick_best_image_from_tag.
    now rewrite (ExtractFacts.largest_nonempty _ H).
Qed.

Lemma pick_best_image_precedence_witness :
  pick_best_image_from_tag Samples.resolve (Some Samples.masked_img)
  = pick_best_image_from_tag Samples.resolve
      (Some (without_attr "data-srcset" Samples.masked_img)).
Proof.
  apply (proj1 (pick_best_image_precedence
                  Samples.resolve Samples.masked_img)).
  vm_compute. discriminate.
Defined.

(** ** The week in the address *)

Module WeekFacts.
Import Calendar.

(** Where in the year a day number near either end of the year lies. *)
Lemma day_of_year_ends y m d :
  1 <= m <= 12 -> 1 <= d <= days_in_month y m ->
  (days_before_month y m + d <= 3 -> m = 1 /\ d <= 3)
  /\ (362 <= days_before_month y m + d -> m = 12 /\ 27 <= d).
Proof.
  intros Hm Hd.
  assert (m = 1 \/ m = 2 \/ m = 3 \/ m = 4 \/ m = 5 \/ m = 6 \/ m = 7
          \/ m = 8 \/ m = 9 \/ m = 10 \/ m = 11 \/ m = 12) as Hcases by lia.
  unfold days_before_month, days_in_month in *.
  destruct (is_leap y);
    repeat (destruct Hcases as [-> | Hcases]); try subst m;
    match goal with
    | |- context [Z.to_nat ?e] =>
        let v := eval vm_compute in (Z.to_nat e) in
        change (Z.to_nat e) with v
    end;
    cbn in *; lia.
Qed.

(** ISO week 53 is met only in the last days of December and, for the
    week that began in the year before, the first days of January. *)
Lemma week_53_dates d :
  valid_date d -> isocalendar_week d = 53 ->
  (month d = 12 /\ 27 <= day d) \/ (month d = 1 /\ day d <= 3).
Proof.
  intros (Hy & Hm & Hd).
  pose proof (CalendarFacts.day_of_year_bounds _ _ _ Hm Hd) as Hk.
  destruct (day_of_year_ends _ _ _ Hm Hd) as [Hlow Hhigh].
  destruct (CalendarFacts.isoweek1monday_spec (year d))
    as (d0 & q0 & E0 & B0 & M0).
  unfold isocalendar_week, ymd2ord.
  set (today := days_before_year (year d)
                + days_before_month (year d) (month d) + day d) in *.
  destruct (Z.ltb_spec ((today - isoweek1monday (year d)) / 7) 0)
    as [Hneg | Hpos].
  - intros _. right. apply Hlow.
    assert (today - isoweek1monday (year d) < 0)
      by (Z.div_mod_to_equations; lia).
    unfold today in *. lia.
  - destruct ((52 <=? _) && _); [lia |].
    intros H53. left. apply Hhigh.
    assert (364 <= today - isoweek1monday (year d))
      by (Z.div_mod_to_equations; lia).
    unfold today in *. lia.
Qed.

End WeekFacts.

(** X9.  The clamp changes the week only at the turn of the year: a valid
    date whose week number differs from its ISO week lies between December
    27th and 31st or between January 1st and 3rd, and its ISO week is 53. *)
Theorem iso_week_number_clamp_dates (d : date) :
  Calendar.valid_date d ->
  iso_week_number d <> Calendar.isocalendar_week d ->
  Calendar.isocalendar_week d = 53
  /\ ((month d = 12 /\ 27 <= day d) \/ (month d = 1 /\ day d <= 3)).
Proof.
  intros Hv Hne.
  pose proof (CalendarFacts.isocalendar_week_range d Hv) as Hr.
  assert (Calendar.isocalendar_week d = 53) as H53
    by (unfold iso_week_number in Hne; lia).
  split; [exact H53 |]. now apply WeekFacts.week_53_dates.
Qed.

Lemma iso_week_number_clamp_dates_witness :
  Calendar.isocalendar_week Samples.new_years_eve = 53
  /\ ((month Samples.new_years_eve = 12 /\ 27 <= day Samples.new_years_eve)
      \/ (month Samples.new_years_eve = 1 /\ day Samples.new_years_eve <= 3)).
Proof.
  apply (iso_week_number_clamp_dates Samples.new_years_eve).
  - unfold Calendar.valid_date. cbn. lia.
  - vm_compute. discriminate.
Defined.

Module UrlFacts.

(** A property of the weeks 1..52, checked week by week. *)
Lemma weeks_1_52 (P : Z -> Prop) :
  (forall n : nat, (n < 52)%nat -> P (Z.of_nat n + 1)) ->
  forall w, 1 <= w <= 52 -> P w.
Proof.
  intros H w Hw.
  replace w with (Z.of_nat (Z.to_nat (w - 1)) + 1) by lia.
  apply H. lia.
Qed.

Lemma week_address w :
  1 <= w <= 52 ->
  BASE +:+ MANUAL_PATH_format w
  = manual_url_prefix
    +:+ String (digit_char (w / 10))
          (String (digit_char (w mod 10)) "?lang=eng")
  /\ PyStr.int_of_digits (PyStr.format_02d w) = Z.to_N w.
Proof.
  revert w. apply weeks_1_52. intros n Hn.
  do 52 (destruct n as [| n]; [split; vm_compute; reflexivity |]).
  lia.
Qed.

End UrlFacts.

(** X10.  For every valid date the address that is requested is the manual's
    address followed by the week as exactly two decimal digits, tens then
    units, and [?lang=eng]; the week can be read back from the two
    digits. *)
Theorem weekly_url_two_digits (d : date) :
  Calendar.valid_date d ->
  BASE +:+ MANUAL_PATH_format (iso_week_number d)
  = manual_url_prefix
    +:+ String (digit_char (iso_week_number d / 10))
          (String (digit_char (iso_week_number d mod 10)) "?lang=eng")
  /\ PyStr.int_of_digits (PyStr.format_02d (iso_week_number d))
     = Z.to_N (iso_week_number d).
Proof.
  intros Hv. apply UrlFacts.week_address.
  pose proof (CalendarFacts.isocalendar_week_range d Hv).
  unfold iso_week_number. lia.
Qed.

Lemma weekly_url_two_digits_witness :
  BASE +:+ MANUAL_PATH_format (iso_week_number Samples.new_years_eve)
  = manual_url_prefix
    +:+ String (digit_char (iso_week_number Samples.new_years_eve / 10))
          (String (digit_char (iso_week_number Samples.new_years_eve mod 10))
             "?lang=eng")
  /\ PyStr.int_of_digits
       (PyStr.format_02d (iso_week_number Samples.new_years_eve))
     = Z.to_N (iso_week_number Samples.new_years_eve).
Proof.
  apply (weekly_url_two_digits Samples.new_years_eve).
  unfold Calendar.valid_date. cbn. lia.
Defined.

(** ** The run: what it leaves behind *)

Module MainFacts.

Lemma out_dir : Os.dirname OUT_JSON = "data".
Proof. reflexivity. Qed.

(** The three ways a run can end, by what the scrape and the file system
    do. *)
Lemma main_cases
    (urljoin : string -> string -> string)
    (parse_html : string -> list string * node)
    (json_dumps : payload -> string) (env : environment) (w : world) :
  let week := iso_week_number (today env) in
  let url := BASE +:+ MANUAL_PATH_format week in
  let run := main urljoin parse_html json_dumps env w in
  (exists e,
      fst (scrape_week urljoin parse_html env week w) = inl e
      /\ run
         = (1, {| files := files w; directories := directories w;
                  stdout := stdout w;
                  stderr :=
                    stderr w
                    ++ ["ERROR scraping week " +:+ PyStr.str_of_Z week
                          +:+ ": " +:+ e;
                        "Traceback (most recent call last): " +:+ e] |}))
  \/ (exists p r e dirs,
         http_get env url = inr r
         /\ fst (scrape_week urljoin parse_html env week w) = inr p
         /\ ("data" ∈ dom (files w) \/ OUT_JSON ∈ directories w)
         /\ run
            = (1, {| files := files w; directories := dirs;
                     stdout := stdout w;
                     stderr :=
                       (stderr w ++ fst (parse_html (text r)))
                       ++ ["Traceback (most recent call last): " +:+ e] |}))
  \/ (exists p r,
         http_get env url = inr r
         /\ fst (scrape_week urljoin parse_html env week w) = inr p
         /\ ("data" ∉ dom (files w)) /\ (OUT_JSON ∉ directories w)
         /\ run
            = (0, {| files := <[ OUT_JSON := json_dumps p ]> (files w);
                     directories := {[ "data" ]} ∪ directories w;
                     stdout :=
                       stdout w
                       ++ ["Wrote " +:+ OUT_JSON +:+ " for week "
                             +:+ PyStr.str_of_Z week +:+ ": "
                             +:+ big_heading p];
                     stderr := stderr w ++ fst (parse_html (text r)) |})).
Proof.
  cbv zeta. unfold main.
  destruct (RunFacts.scrape_week_cases urljoin parse_html env
              (iso_week_number (today env)) w)
    as [(e & ->) | (p & r & Hget & _ & ->)]; cbn [fst snd].
  - left. exists e. split; [reflexivity |].
    unfold uncaught, Os.print_err. cbn. now rewrite <- app_assoc.
  - right. rewrite out_dir. unfold Os.makedirs. cbn [PyStr.nonempty negb].
    cbn [Os.show_warnings files directories stdout stderr].
    destruct (decide ("data" ∈ dom (files w))) as [Hd | Hd].
    + left. exists p, r, "FileExistsError", (directories w).
      split; [exact Hget |]. split; [reflexivity |]. split; [now left |].
      now rewrite (bool_decide_eq_true_2 _ Hd).
    + rewrite (bool_decide_eq_false_2 _ Hd).
      unfold Os.write_file. cbn [directories files stdout stderr].
      destruct (decide (OUT_JSON ∈ directories w)) as [Hf | Hf].
      * left.
        exists p, r, "IsADirectoryError", ({[ "data" ]} ∪ directories w).
        split; [exact Hget |]. split; [reflexivity |]. split; [now right |].
        rewrite bool_decide_eq_true_2; [reflexivity |].
        apply elem_of_union. now right.
      * right. exists p, r.
        split; [exact Hget |]. split; [reflexivity |].
        split; [exact Hd |]. split; [exact Hf |].
        rewrite bool_decide_eq_false_2; [reflexivity |].
        intros [Hin%elem_of_singleton | Hin]%elem_of_union;
          [discriminate Hin | now apply Hf].
Qed.

End MainFacts.


(** X12.  A run that ends with status 0 can be repeated: run again in the
    world it left, with the same clock and network, it ends with status 0
    again and leaves the same files and directories; the directory that
    exists by then is no error. *)
Theorem main_rerun
    (urljoin : string -> string -> string)
    (parse_html : string -> list string * node)
    (json_dumps : payload -> string) (env : environment) (w : world) :
  let first := main urljoin parse_html json_dumps env w in
  let second := main urljoin parse_html json_dumps env (snd first) in
  fst first = 0 ->
  fst second = 0
  /\ files (snd second) = files (snd first)
  /\ directories (snd second) = directories (snd first).
Proof.
  cbv zeta.
  destruct (MainFacts.main_cases urljoin parse_html json_dumps env w)
    as [(e & Hs & ->)
       | [(p & r & e & dirs & _ & Hs & Hfs & ->)
         | (p & r & _ & Hs & Hd & Hf & ->)]];
    cbn [fst snd]; try discriminate.
  intros _.
  set (w1 := {| files := <[ OUT_JSON := json_dumps p ]> (files w);
                directories := {[ "data" ]} ∪ directories w;
                stdout := _; stderr := _ |}).
  rewrite (RunFacts.scrape_week_result urljoin parse_html env _ w w1) in Hs.
  destruct (MainFacts.main_cases urljoin parse_html json_dumps env w1)
    as [(e & Hs' & ->)
       | [(p' & r' & e & dirs & _ & Hs' & Hfs & ->)
         | (p' & r' & _ & Hs' & _ & _ & ->)]];
    cbn [fst snd files directories].
  - congruence.
  - exfalso. destruct Hfs as [Hin | Hin]; cbn in Hin.
    + rewrite dom_insert_L in Hin.
      apply elem_of_union in Hin as [Hin%elem_of_singleton | Hin];
        [discriminate Hin | now apply Hd].
    + apply elem_of_union in Hin as [Hin%elem_of_singleton | Hin];
        [discriminate Hin | now apply Hf].
  - assert (p' = p) as -> by congruence.
    split; [reflexivity |]. split.
    + apply insert_insert_eq.
    + unfold w1. cbn [directories].
      now rewrite (assoc_L (∪)), (idemp_L (∪)).
Qed.

Lemma main_rerun_witness :
  fst (main Samples.resolve Samples.parse Samples.dumps
         (Samples.answering 200 "OK" Samples.headings_page)
         (snd (main Samples.resolve Samples.parse Samples.dumps
                 (Samples.answering 200 "OK" Samples.headings_page)
                 Samples.empty_world))) = 0
  /\ files (snd (main Samples.resolve Samples.parse Samples.dumps
                   (Samples.answering 200 "OK" Samples.headings_page)
                   (snd (main Samples.resolve Samples.parse Samples.dumps
                           (Samples.answering 200 "OK" Samples.headings_page)
                           Samples.empty_world))))
     = files (snd (main Samples.resolve Samples.parse Samples.dumps
                     (Samples.answering 200 "OK" Samples.headings_page)
                     Samples.empty_world))
  /\ directories
       (snd (main Samples.resolve Samples.parse Samples.dumps
               (Samples.answering 200 "OK" Samples.headings_page)
               (snd (main Samples.resolve Samples.parse Samples.dumps
                       (Samples.answering 200 "OK" Samples.headings_page)
                       Samples.empty_world))))
     = directories
         (snd (main Samples.resolve Samples.parse Samples.dumps
                 (Samples.answering 200 "OK" Samples.headings_page)
                 Samples.empty_world)).
Proof.
  apply (main_rerun Samples.resolve Samples.parse Samples.dumps
           (Samples.answering 200 "OK" Samples.headings_page)
           Samples.empty_world).
  vm_compute. reflexivity.
Defined.

(** X13.  When the scrape succeeds but the file system refuses (the [data]
    path is a regular file, or the output path is a directory) the run ends
    with status 1 and no file is changed; the failure is reported by the
    interpreter alone: after what the parser warned about the page the
    error stream gets one line, and the [ERROR scraping week] line, which
    is printed for failures of the scrape only, is not there. *)
Theorem main_file_system_failure
    (urljoin : string -> string -> string)
    (parse_html : string -> list string * node)
    (json_dumps : payload -> string) (env : environment) (w : world)
    (r : response) (p : payload) :
  let week := iso_week_number (today env) in
  let run := main urljoin parse_html json_dumps env w in
  http_get env (BASE +:+ MANUAL_PATH_format week) = inr r ->
  fst (scrape_week urljoin parse_html env week w) = inr p ->
  "data" ∈ dom (files w) \/ OUT_JSON ∈ directories w ->
  fst run = 1
  /\ files (snd run) = files w
  /\ stdout (snd run) = stdout w
  /\ exists e,
       stderr (snd run)
       = stderr w ++ fst (parse_html (text r))
           ++ ["Traceback (most recent call last): " +:+ e].
Proof.
  cbv zeta. intros Hget Hp Hfs.
  destruct (MainFacts.main_cases urljoin parse_html json_dumps env w)
    as [(e & Hs & ->)
       | [(p' & r' & e & dirs & Hget' & Hs & _ & ->)
         | (p' & r' & _ & Hs & Hd & Hf & ->)]];
    cbn [fst snd files directories stdout stderr].
  - congruence.
  - repeat split. exists e.
    assert (r' = r) as -> by congruence. now rewrite <- app_assoc.
  - destruct Hfs; contradiction.
Qed.

Lemma main_file_system_failure_witness :
  fst (main Samples.resolve Samples.parse Samples.dumps
         (Samples.answering 200 "OK" Samples.address_page)
         Samples.data_is_a_file) = 1
  /\ files (snd (main Samples.resolve Samples.parse Samples.dumps
                   (Samples.answering 200 "OK" Samples.address_page)
                   Samples.data_is_a_file))
     = files Samples.data_is_a_file
  /\ stdout (snd (main Samples.resolve Samples.parse Samples.dumps
                    (Samples.answering 200 "OK" Samples.address_page)
                    Samples.data_is_a_file))
     = stdout Samples.data_is_a_file
  /\ exists e,
       stderr (snd (main Samples.resolve Samples.parse Samples.dumps
                      (Samples.answering 200 "OK" Samples.address_page)
                      Samples.data_is_a_file))
       = stderr Samples.data_is_a_file
           ++ fst (Samples.parse Samples.address_page)
           ++ ["Traceback (most recent call last): " +:+ e].
Proof.
  eapply (main_file_system_failure Samples.resolve Samples.parse
            Samples.dumps (Samples.answering 200 "OK" Samples.address_page)
            Samples.data_is_a_file
            {| status_code := 200; reason := "OK";
               url_of := BASE +:+ MANUAL_PATH_format 45;
               text := Samples.address_page |}).
  - reflexivity.
  - vm_compute. reflexivity.
  - left. cbn. rewrite dom_singleton_L. now apply elem_of_singleton.
Defined.



(** ** The first URL of a list without widths *)

Module FirstUrlFacts.
Import PyStr PyStrFacts.

Lemma head_split_in sep s : default "" (head (split sep s)) ∈ split sep s.
Proof.
  pose proof (split_nonnil sep s) as Hn.
  destruct (split sep s) as [| h t]; [congruence |]. left.
Qed.

Lemma all_occurs q p s : occurs p s -> all q s = true -> all q p = true.
Proof.
  intros (a & b & ->). rewrite !SrcsetMore.all_app.
  intros [_ [H _]%andb_true_iff]%andb_true_iff. exact H.
Qed.

End FirstUrlFacts.

(** X15.  The first URL read from a candidate list without widths is text
    of the list itself and holds neither a comma nor a space, whatever the
    list looks like. *)
Theorem first_url_text (ss : string) :
  occurs (first_url ss) ss
  /\ PyStr.all not_comma_or_space (first_url ss) = true.
Proof.
  unfold first_url.
  set (entry := default "" (head (PyStr.split "," ss))).
  set (stripped := PyStr.strip entry).
  set (word := default "" (head (PyStr.split " " stripped))).
  pose proof (FirstUrlFacts.head_split_in "," ss) as He. fold entry in He.
  pose proof (FirstUrlFacts.head_split_in " " stripped) as Hw.
  fold word in Hw.
  assert (occurs word entry) as Hwe.
  { apply (SrcsetMore.occurs_trans _ stripped).
    - now apply (SrcsetMore.occurs_field " ").
    - apply SrcsetMore.occurs_strip. }
  split.
  - apply (SrcsetMore.occurs_trans _ word); [apply SrcsetMore.occurs_strip |].
    apply (SrcsetMore.occurs_trans _ entry); [exact Hwe |].
    now apply (SrcsetMore.occurs_field ",").
  - apply SrcsetMore.all_strip. unfold not_comma_or_space.
    apply SrcsetMore.all_and.
    + apply (FirstUrlFacts.all_occurs _ word entry Hwe).
      now apply (SrcsetMore.split_fields "," ss).
    + now apply (SrcsetMore.split_fields " " stripped).
Qed.
